(** * Service launcher of the Price Optimizer desktop shell

    A shallow embedding of [electron/main.js] (the readiness check
    [checkServer], the two service starters, [cleanup], the startup
    sequence and the application event handlers) and of the launcher shell
    script, followed by the properties of the supervisor specification
    that can be stated over them.

    Conventions.
    - Time is the value of [Date.now()], an integer number of milliseconds
      ([Z]); latencies of the network are naturals ([N]).
    - Everything the program does to the outside world (console lines,
      spawned processes, signals, HTTP requests, windows, [app.quit()]) is
      recorded in a trace, in program order.  The actions of a readiness
      check carry their times and are kept together, one chain of retries
      after the other; what the handlers of the events that arrive during
      a check do follows them.
    - The three module-level variables [mainWindow], [pythonProcess] and
      [nextProcess] are fields of the application state; [null] is [None]. *)

From Stdlib Require Import ZArith NArith Lia String DecimalString.
From stdpp Require Import base option list gmap strings.

Local Open Scope string_scope.
Local Open Scope Z_scope.
Local Open Scope list_scope.

(** ** Constants of [electron/main.js] *)

Definition BACKEND_PORT : Z := 8000.
Definition FRONTEND_PORT : Z := 3000.

(** [setTimeout(check, 500)]: the delay between a failed attempt and the
    next one; the timer is taken to fire exactly when it is due. *)
Definition POLL_DELAY : Z := 500.

(** [timeout: 2000] in the options of [http.request]. *)
Definition REQUEST_TIMEOUT : Z := 2000.

(** The default value of [checkServer]'s second parameter; no call site
    relies on it. *)
Definition DEFAULT_TIMEOUT : Z := 30000.

(** The value both call sites pass. *)
Definition STARTUP_TIMEOUT : Z := 60000.

(** ** The readiness check *)

Module Probe.

(** What the network does to one [http.request], and so which of the
    callbacks registered on it run.
    - [Response]: the response callback runs after [latency] ms; [status]
      is the HTTP status of [res], which the callback never reads.  The
      check of this chain of retries ends here.
    - [ConnError]: the ['error'] handler runs after [latency] ms.
    - [SocketTimeout]: the socket has been idle for [REQUEST_TIMEOUT] ms
      and the ['timeout'] handler runs.  It calls [req.destroy()], which
      makes the request emit ['error'] as well, so the ['error'] handler
      runs too, [lag] ms later.  Each of the two handlers arms its own
      retry: the outcomes that follow in the list are those of the
      requests of the retries armed by the ['timeout'] handler, and
      [forked] are those of the requests of the retries armed by the
      ['error'] handler. *)
#[warnings="-register-all"]
Inductive outcome : Type :=
| Response (status : Z) (latency : N)
| ConnError (latency : N)
| SocketTimeout (lag : N) (forked : list outcome).

(** [new Error(`Server on port ${port} did not start within ${timeout}ms`)]:
    the two interpolated values. *)
Record error : Type := DidNotStart { err_port : Z; err_timeout : Z }.

(** What the check does, with the clock value at which it does it. *)
Inductive action : Type :=
| Request (now : Z) (port : Z) (path : string)
| Destroy (now : Z)
| Resolve (now : Z) (value : bool)
| Reject (now : Z) (e : error)
| SetTimeout (now : Z) (delay : Z).

(** [path: port === BACKEND_PORT ? '/routes/health' : '/'] *)
Definition request_path (port : Z) : string :=
  if port =? BACKEND_PORT then "/routes/health" else "/".

(** The decision shared by the ['error'] and ['timeout'] handlers:
    [if (Date.now() - startTime > timeout) reject(...) else setTimeout(check, 500)].
    [true] is the [reject] branch. *)
Definition expired (startTime timeout now : Z) : bool :=
  now - startTime >? timeout.

Section Poll.
Variables (port timeout startTime : Z).

(** [(res) => { resolve(true); }] *)
Definition on_response (now : Z) : list action := [Resolve now true].

(** The [if]/[else] both failure handlers end with; [again] is [check],
    which the timer calls [POLL_DELAY] ms later.  Neither branch looks at
    the state of the promise: [reject] on a settled promise does nothing,
    and the timer is armed all the same. *)
Definition reject_or_retry (now : Z) (again : Z → list action) : list action :=
  if expired startTime timeout now
  then [Reject now (DidNotStart port timeout)]
  else SetTimeout now POLL_DELAY :: again (now + POLL_DELAY).

(** [req.on('error', () => { ... })] *)
Definition on_error (now : Z) (again : Z → list action) : list action :=
  reject_or_retry now again.

(** [req.on('timeout', () => { req.destroy(); ... })] *)
Definition on_timeout (now : Z) (again : Z → list action) : list action :=
  Destroy now :: reject_or_retry now again.

(** The callbacks of one request issued at [now] whose retry, if its
    handler arms one, is [retry].  After a socket timeout both failure
    handlers run, the ['error'] handler [lag] ms after the ['timeout']
    handler, and the retry the ['error'] handler arms is [check] on the
    forked outcomes; [check] is written out here because the recursion
    goes through the outcome. *)
Fixpoint callbacks (o : outcome) (now : Z) (retry : Z → list action)
    {struct o} : list action :=
  match o with
  | Response _ d => on_response (now + Z.of_N d)
  | ConnError d => on_error (now + Z.of_N d) retry
  | SocketTimeout lag forked =>
      on_timeout (now + REQUEST_TIMEOUT) retry ++
      on_error (now + REQUEST_TIMEOUT + Z.of_N lag)
        (λ t,
           (fix check (now : Z) (outs : list outcome) {struct outs}
              : list action :=
              Request now port (request_path port) ::
              match outs with
              | [] => []
              | o :: rest => callbacks o now (λ t, check t rest)
              end) t forked)
  end.

(** [check]: one request per call, then its callbacks; a failure handler
    that runs before the deadline re-arms [check] through [setTimeout].
    The actions are listed chain by chain: those of a request, then those
    of the retries its handlers armed; after a socket timeout, first the
    whole chain armed by the ['timeout'] handler, then what the ['error']
    handler does and the chain it armed.  Each action carries its own
    time, and the two chains run side by side.  Where the outcomes of a
    chain run out, its last request has had no callback. *)
Fixpoint check (now : Z) (outs : list outcome) {struct outs} : list action :=
  Request now port (request_path port) ::
  match outs with
  | [] => []
  | o :: rest => callbacks o now (λ t, check t rest)
  end.
End Poll.

(** [checkServer(port, timeout)], called when the clock shows [now]:
    [startTime = Date.now()] and the first [check()] runs at once. *)
Definition checkServer (port timeout now : Z) (outs : list outcome) : list action :=
  check port timeout now now outs.

(** *** Reading a run *)

Inductive settlement : Type :=
| Resolved (value : bool)
| Rejected (e : error).

Definition settles (a : action) : option (settlement * Z) :=
  match a with
  | Resolve t v => Some (Resolved v, t)
  | Reject t e => Some (Rejected e, t)
  | _ => None
  end.

(** Of two settlements the one that comes first in time; of two at the
    same time, the first one. *)
Definition earlier (a b : option (settlement * Z)) : option (settlement * Z) :=
  match a, b with
  | Some (_, ta), Some (_, tb) => if tb <? ta then b else a
  | Some _, None => a
  | None, _ => b
  end.

(** The settlement of the promise in a run, with its time: the earliest
    call of [resolve] or [reject], later ones having no effect; [None]
    while the promise is pending. *)
Fixpoint settled (run : list action) : option (settlement * Z) :=
  match run with
  | [] => None
  | a :: rest => earlier (settles a) (settled rest)
  end.


Definition is_timer (a : action) : bool :=
  match a with SetTimeout _ _ => true | _ => false end.

Definition is_resolve (a : action) : bool :=
  match a with Resolve _ _ => true | _ => false end.


(** Number of times [setTimeout(check, 500)] was called in a run. *)
Definition timers (run : list action) : nat :=
  length (filter (λ a, is_timer a = true) run).

(** Number of times [resolve] was called in a run. *)
Definition resolves (run : list action) : nat :=
  length (filter (λ a, is_resolve a = true) run).

Definition is_response (o : outcome) : bool :=
  match o with Response _ _ => true | _ => false end.

(** Time from a request to the last callback it runs. *)
Definition duration (o : outcome) : Z :=
  match o with
  | Response _ d => Z.of_N d
  | ConnError d => Z.of_N d
  | SocketTimeout lag _ => REQUEST_TIMEOUT + Z.of_N lag
  end.

(** An outcome that is no response and whose last callback runs within
    [L] ms of the request. *)
Definition fails_within (L : Z) (o : outcome) : bool :=
  negb (is_response o) && (duration o <=? L).

(** [p] holds of an outcome and of every outcome of the chain it forks. *)
Fixpoint every_outcome (p : outcome → bool) (o : outcome) : bool :=
  p o &&
  match o with
  | SocketTimeout _ forked => forallb (every_outcome p) forked
  | _ => true
  end.

(** [p] holds of every outcome of every chain. *)
Definition every (p : outcome → bool) (outs : list outcome) : bool :=
  forallb (every_outcome p) outs.

(** Number of responses among the outcomes of all chains. *)
Fixpoint responses_of (o : outcome) : nat :=
  match o with
  | Response _ _ => 1
  | ConnError _ => 0
  | SocketTimeout _ forked => foldr (λ o n, responses_of o + n)%nat 0%nat forked
  end.

Definition responses (outs : list outcome) : nat :=
  foldr (λ o n, responses_of o + n)%nat 0%nat outs.



(** What holds of every action of a check whose attempts run their last
    callback within [L] ms: no request later than one poll delay after
    the deadline, no settlement later than one attempt after that, and no
    rejection before the deadline or with another error. *)
Definition timely (port timeout startTime L : Z) (a : action) : Prop :=
  match a with
  | Request t _ _ => t - startTime <= timeout + POLL_DELAY
  | Resolve t _ => t - startTime <= timeout + POLL_DELAY + L
  | Reject t e =>
      e = DidNotStart port timeout ∧
      timeout < t - startTime <= timeout + POLL_DELAY + L
  | _ => True
  end.


(** Times at which the requests of a run were issued. *)
Definition request_times (run : list action) : list Z :=
  omap (λ a, match a with Request t _ _ => Some t | _ => None end) run.

(** Induction on the outcomes of all chains. *)
Section OutcomesInd.
Variable P : list outcome → Prop.
Hypothesis P_nil : P [].
Hypothesis P_response : ∀ st d rest, P rest → P (Response st d :: rest).
Hypothesis P_error : ∀ d rest, P rest → P (ConnError d :: rest).
Hypothesis P_timeout :
  ∀ lag forked rest, P forked → P rest → P (SocketTimeout lag forked :: rest).

Fixpoint outcome_ind_nested (o : outcome) : ∀ rest, P rest → P (o :: rest) :=
  match o with
  | Response st d => P_response st d
  | ConnError d => P_error d
  | SocketTimeout lag forked =>
      λ rest Hrest,
        P_timeout lag forked rest
          ((fix chain (l : list outcome) : P l :=
              match l with
              | [] => P_nil
              | o' :: l' => outcome_ind_nested o' l' (chain l')
              end) forked)
          Hrest
  end.

Fixpoint outcomes_ind (outs : list outcome) : P outs :=
  match outs with
  | [] => P_nil
  | o :: rest => outcome_ind_nested o rest (outcomes_ind rest)
  end.
End OutcomesInd.

End Probe.

(** ** The application: processes, windows and the trace *)

Inductive service : Type := Backend | Frontend.

(** Signals: the program only ever sends [SIGTERM]; [SIGKILL] is the
    forceful kill of the operating system. *)
Inductive signal : Type := SIGTERM | SIGKILL.

(** [process.platform] *)
Inductive platform : Type := Darwin | Linux | Win32.

(** The first two arguments of [spawn] and the [shell] option. *)
Record command : Type := Command {
  cmd : string;
  args : list string;
  use_shell : bool
}.

(** What the program cannot decide: the platform, [app.isPackaged], and
    whether a service's process ignores [SIGTERM]. *)
Record host : Type := Host {
  host_platform : platform;
  isPackaged : bool;
  ignores_term : service → bool
}.

(** A child process as the operating system sees it; its pid is its
    position in the list of children. *)
Record child : Type := Child {
  ch_service : service;
  ch_ignores_term : bool;
  ch_alive : bool;
  ch_signals : list signal
}.

Inductive window_kind : Type := LoadingWindow | MainWindow.

#[global] Instance service_eq_dec : EqDecision service.
Proof. solve_decision. Defined.

#[global] Instance signal_eq_dec : EqDecision signal.
Proof. solve_decision. Defined.

#[global] Instance window_kind_eq_dec : EqDecision window_kind.
Proof. solve_decision. Defined.

Inductive effect : Type :=
| Log (line : string)
| LogError (line : string)
| LogExit (svc : service) (code : option Z) (sig : option signal)
| LogFailure (e : Probe.error)
| Spawn (svc : service) (pid : nat) (c : command)
| Kill (pid : nat) (sig : signal)
| Http (a : Probe.action)
| NewWindow (k : window_kind) (id : nat)
| CloseWindow (id : nat)
| LoadURL (id : nat) (port : Z)
| AppQuit.

Record app : Type := App {
  mainWindow : option nat;
  pythonProcess : option nat;
  nextProcess : option nat;
  windows : list (nat * window_kind);
  next_window : nat;
  children : list child;
  clock : Z;
  trace : list effect
}.

Definition initial : app := App None None None [] 0 [] 0 [].

Definition set_mainWindow (w : option nat) (s : app) : app :=
  App w (pythonProcess s) (nextProcess s) (windows s) (next_window s)
      (children s) (clock s) (trace s).

Definition set_pythonProcess (p : option nat) (s : app) : app :=
  App (mainWindow s) p (nextProcess s) (windows s) (next_window s)
      (children s) (clock s) (trace s).

Definition set_nextProcess (p : option nat) (s : app) : app :=
  App (mainWindow s) (pythonProcess s) p (windows s) (next_window s)
      (children s) (clock s) (trace s).

Definition set_windows (ws : list (nat * window_kind)) (n : nat) (s : app) : app :=
  App (mainWindow s) (pythonProcess s) (nextProcess s) ws n
      (children s) (clock s) (trace s).

Definition set_children (cs : list child) (s : app) : app :=
  App (mainWindow s) (pythonProcess s) (nextProcess s) (windows s)
      (next_window s) cs (clock s) (trace s).

Definition set_clock (t : Z) (s : app) : app :=
  App (mainWindow s) (pythonProcess s) (nextProcess s) (windows s)
      (next_window s) (children s) t (trace s).

Definition emit_all (es : list effect) (s : app) : app :=
  App (mainWindow s) (pythonProcess s) (nextProcess s) (windows s)
      (next_window s) (children s) (clock s) (trace s ++ es).

Definition emit (e : effect) (s : app) : app := emit_all [e] s.

(** *** The operating system and the window system *)

(** [spawn(cmd, args, options)]: a new live child. *)
Definition spawn (h : host) (svc : service) (c : command) (s : app) : nat * app :=
  let pid := length (children s) in
  (pid,
   emit (Spawn svc pid c)
     (set_children (children s ++ [Child svc (ignores_term h svc) true []]) s)).

(** A signal reaching a process: [SIGKILL] always ends it, [SIGTERM] ends
    it unless it ignores the signal; a dead process receives nothing. *)
Definition deliver (sig : signal) (c : child) : child :=
  if ch_alive c then
    Child (ch_service c) (ch_ignores_term c)
          (match sig with SIGKILL => false | SIGTERM => ch_ignores_term c end)
          (ch_signals c ++ [sig])
  else c.

(** [proc.kill(sig)] *)
Definition kill (pid : nat) (sig : signal) (s : app) : app :=
  emit (Kill pid sig) (set_children (alter (deliver sig) pid (children s)) s).

(** [new BrowserWindow(...)] *)
Definition new_window (k : window_kind) (s : app) : nat * app :=
  let id := next_window s in
  (id, emit (NewWindow k id) (set_windows (windows s ++ [(id, k)]) (S id) s)).

Definition remove_window (id : nat) (ws : list (nat * window_kind))
  : list (nat * window_kind) :=
  filter (λ w, w.1 ≠ id) ws.

(** [win.close()] *)
Definition close_window (id : nat) (s : app) : app :=
  emit (CloseWindow id) (set_windows (remove_window id (windows s)) (next_window s) s).

(** ** The functions of [electron/main.js] *)

(** [startBackend]: the command depends on [app.isPackaged]; the handle is
    stored in [pythonProcess]. *)
Definition backend_command (h : host) : command :=
  if isPackaged h
  then Command "python3"
         ["-m"; "uvicorn"; "main:app"; "--host"; "127.0.0.1"; "--port"; "8000"] false
  else Command "uv"
         ["run"; "uvicorn"; "api.main:app"; "--host"; "127.0.0.1"; "--port"; "8000"] false.

Definition startBackend (h : host) (s : app) : app :=
  let s := emit (Log "Starting Python backend...") s in
  let '(pid, s) := spawn h Backend (backend_command h) s in
  set_pythonProcess (Some pid) s.

(** [startFrontend]: the handle is stored in [nextProcess]. *)
Definition frontend_command (h : host) : command :=
  if isPackaged h
  then Command "node" ["server.js"] false
  else Command "pnpm" ["start"] true.

Definition startFrontend (h : host) (s : app) : app :=
  let s := emit (Log "Starting Next.js frontend...") s in
  let '(pid, s) := spawn h Frontend (frontend_command h) s in
  set_nextProcess (Some pid) s.

(** [createWindow]: a new main window, stored in [mainWindow].  The menu
    and the ['ready-to-show'] callback do not touch the services and are
    left out. *)
Definition createWindow (s : app) : nat * app :=
  let '(id, s) := new_window MainWindow s in
  (id, set_mainWindow (Some id) s).

(** [cleanup]: the backend first, then the frontend; each tracked process
    gets one [SIGTERM] and its variable is set to [null] at once. *)
Definition stop_backend (s : app) : app :=
  match pythonProcess s with
  | Some pid =>
      set_pythonProcess None
        (kill pid SIGTERM (emit (Log "Stopping backend...") s))
  | None => s
  end.

Definition stop_frontend (s : app) : app :=
  match nextProcess s with
  | Some pid =>
      set_nextProcess None
        (kill pid SIGTERM (emit (Log "Stopping frontend...") s))
  | None => s
  end.

Definition cleanup (s : app) : app :=
  stop_frontend (stop_backend (emit (Log "Cleaning up...") s)).

(** [app.quit()] *)
Definition app_quit (s : app) : app := emit AppQuit s.

(** [await checkServer(port, 60000)]: the run of the check is appended to
    the trace, each action with its time (those of a chain that a
    timed-out request forked may be later than the settlement); when the
    promise settles the clock has advanced to the settlement, otherwise
    the caller stays suspended. *)
Definition await_checkServer (port : Z) (outs : list Probe.outcome) (s : app)
  : option Probe.settlement * app :=
  let run := Probe.checkServer port STARTUP_TIMEOUT (clock s) outs in
  let s := emit_all (map Http run) s in
  match Probe.settled run with
  | Some (r, t) => (Some r, set_clock t s)
  | None => (None, s)
  end.

Inductive startup_result : Type :=
| Started (window : nat)
| Failed (e : Probe.error)
| Suspended.

(** The [catch] block of the startup callback. *)
Definition startup_failed (loading : nat) (e : Probe.error) (s : app) : app :=
  app_quit (cleanup (close_window loading (emit (LogFailure e) s))).

(** The callback of [app.whenReady().then(...)].  [bo] and [fo] are what
    the network does to the requests of the backend check and of the
    frontend check.  This is the callback as it runs when no event
    arrives while it is suspended at its two [await]s; [startup_with],
    below, takes such events in. *)
Definition startup (h : host) (bo fo : list Probe.outcome) (s : app)
  : startup_result * app :=
  let s := emit (Log "Price Optimizer AI starting...") s in
  let '(loading, s) := new_window LoadingWindow s in
  let s := startBackend h s in
  let s := startFrontend h s in
  let s := emit (Log "Waiting for backend to be ready...") s in
  let '(r, s) := await_checkServer BACKEND_PORT bo s in
  match r with
  | None => (Suspended, s)
  | Some (Probe.Rejected e) => (Failed e, startup_failed loading e s)
  | Some (Probe.Resolved _) =>
      let s := emit (Log "Backend is ready!") s in
      let s := emit (Log "Waiting for frontend to be ready...") s in
      let '(r, s) := await_checkServer FRONTEND_PORT fo s in
      match r with
      | None => (Suspended, s)
      | Some (Probe.Rejected e) => (Failed e, startup_failed loading e s)
      | Some (Probe.Resolved _) =>
          let s := emit (Log "Frontend is ready!") s in
          let s := close_window loading s in
          let '(w, s) := createWindow s in
          (Started w, emit (LoadURL w FRONTEND_PORT) s)
      end
  end.

(** *** Event handlers *)

Inductive event : Type :=
| WindowClosed (id : nat)
| WindowAllClosed
| OnQuit
| Activate
| ChildExit (pid : nat) (code : option Z) (sig : option signal)
| ChildError (pid : nat)
| UncaughtException
| UnhandledRejection.

(** [proc.on('exit', (code, signal) => { console.log(...); proc = null; })],
    one handler per service, each clearing its own variable. *)
Definition on_exit (svc : service) (code : option Z) (sig : option signal)
    (s : app) : app :=
  let s := emit (LogExit svc code sig) s in
  match svc with
  | Backend => set_pythonProcess None s
  | Frontend => set_nextProcess None s
  end.

(** The process is gone before its ['exit'] handler runs. *)
Definition exited (c : child) : child :=
  Child (ch_service c) (ch_ignores_term c) false (ch_signals c).

(** [mainWindow.on('closed', () => { mainWindow = null; })]; the loading
    window has no such handler. *)
Definition on_closed (id : nat) (s : app) : app :=
  let main := bool_decide ((id, MainWindow) ∈ windows s) in
  let s := set_windows (remove_window id (windows s)) (next_window s) s in
  if main then set_mainWindow None s else s.

(** [app.on('window-all-closed', ...)] *)
Definition on_window_all_closed (h : host) (s : app) : app :=
  let s := cleanup s in
  match host_platform h with
  | Darwin => s
  | _ => app_quit s
  end.

(** [app.on('activate', ...)] *)
Definition on_activate (s : app) : app :=
  if bool_decide (length (windows s) = 0%nat) then (createWindow s).2 else s.

Definition handle (h : host) (ev : event) (s : app) : app :=
  match ev with
  | WindowClosed id => on_closed id s
  | WindowAllClosed => on_window_all_closed h s
  | OnQuit => cleanup s
  | Activate => on_activate s
  | ChildExit pid code sig =>
      match children s !! pid with
      | Some c => on_exit (ch_service c) code sig
                    (set_children (alter exited pid (children s)) s)
      | None => s
      end
  | ChildError pid =>
      match children s !! pid with
      | Some c => emit (LogError (match ch_service c with
                                  | Backend => "Failed to start backend:"
                                  | Frontend => "Failed to start frontend:"
                                  end)) s
      | None => s
      end
  | UncaughtException =>
      app_quit (cleanup (emit (LogError "Uncaught exception:") s))
  | UnhandledRejection => emit (LogError "Unhandled rejection at:") s
  end.

Definition handle_all (h : host) (evs : list event) (s : app) : app :=
  foldl (λ s ev, handle h ev s) s evs.

(** *** The startup callback and the events that arrive while it waits *)

(** [loadingWindow.close()] is called on the window object whatever has
    become of it: on a window that was closed meanwhile the call throws
    ([Object has been destroyed]). *)
Definition is_open (id : nat) (s : app) : bool :=
  bool_decide (id ∈ (windows s).*1).

(** How the callback ends: it returns (or stays suspended), or
    [loadingWindow.close()] throws in its [catch] block and the promise
    of the callback is rejected.  [Threw (Some e)]: the [catch] block had
    caught the rejection [e] of a check; [Threw None]: it had caught the
    exception of [loadingWindow.close()] in the [try] block. *)
Inductive startup_end : Type :=
| Returned (r : startup_result)
| Threw (e : option Probe.error).

(** The [catch] block, entered with the rejection of a check.  When
    [loadingWindow.close()] throws, [cleanup()] and [app.quit()] are not
    reached and the ['unhandledRejection'] handler runs. *)
Definition startup_catch (h : host) (loading : nat) (e : Probe.error)
    (s : app) : startup_end * app :=
  if is_open loading s then (Returned (Failed e), startup_failed loading e s)
  else (Threw (Some e), handle h UnhandledRejection (emit (LogFailure e) s)).

(** The end of the [try] block, once both checks have resolved.  When
    [loadingWindow.close()] throws, the [catch] block prints the
    exception and calls [loadingWindow.close()] again. *)
Definition startup_finish (h : host) (loading : nat) (s : app)
  : startup_end * app :=
  let s := emit (Log "Frontend is ready!") s in
  if is_open loading s then
    let s := close_window loading s in
    let '(w, s) := createWindow s in
    (Returned (Started w), emit (LoadURL w FRONTEND_PORT) s)
  else
    (Threw None,
     handle h UnhandledRejection
       (emit (LogError "Failed to start services:") s)).

(** The callback of [app.whenReady().then(...)] again, now with the events
    whose handlers run while it is suspended at its two [await]s:
    [during_backend] while it waits for the backend's check and
    [during_frontend] while it waits for the frontend's.  The handlers do
    not touch the checks and the checks do not touch the state of the
    app, so only the order of the events among themselves matters; in the
    trace their effects follow the requests of the check they arrived
    during.  Electron ends the process some time after [app.quit()]; the
    run is not cut there, so that it also covers the continuation of the
    callback coming first.  [startup] is the case in which no event
    arrives. *)
Definition startup_with (h : host) (bo : list Probe.outcome)
    (during_backend : list event) (fo : list Probe.outcome)
    (during_frontend : list event) (s : app) : startup_end * app :=
  let s := emit (Log "Price Optimizer AI starting...") s in
  let '(loading, s) := new_window LoadingWindow s in
  let s := startBackend h s in
  let s := startFrontend h s in
  let s := emit (Log "Waiting for backend to be ready...") s in
  let '(r, s) := await_checkServer BACKEND_PORT bo s in
  let s := handle_all h during_backend s in
  match r with
  | None => (Returned Suspended, s)
  | Some (Probe.Rejected e) => startup_catch h loading e s
  | Some (Probe.Resolved _) =>
      let s := emit (Log "Backend is ready!") s in
      let s := emit (Log "Waiting for frontend to be ready...") s in
      let '(r, s) := await_checkServer FRONTEND_PORT fo s in
      let s := handle_all h during_frontend s in
      match r with
      | None => (Returned Suspended, s)
      | Some (Probe.Rejected e) => startup_catch h loading e s
      | Some (Probe.Resolved _) => startup_finish h loading s
      end
  end.

(** *** Reading a trace *)

(** Pids in the order in which they were spawned. *)
Definition spawned (tr : list effect) : list nat :=
  omap (λ e, match e with Spawn _ pid _ => Some pid | _ => None end) tr.

(** Services in the order in which they were spawned. *)
Definition spawned_services (tr : list effect) : list service :=
  omap (λ e, match e with Spawn svc _ _ => Some svc | _ => None end) tr.

(** Signals sent, in order, with their targets. *)
Definition signalled (tr : list effect) : list (nat * signal) :=
  omap (λ e, match e with Kill pid sig => Some (pid, sig) | _ => None end) tr.

(** HTTP requests issued, in order, by port. *)
Definition requested (tr : list effect) : list Z :=
  omap (λ e, match e with Http (Probe.Request _ port _) => Some port | _ => None end) tr.

Definition is_quit (e : effect) : bool :=
  match e with AppQuit => true | _ => false end.

Definition is_console (e : effect) : bool :=
  match e with
  | Log _ | LogError _ | LogExit _ _ _ | LogFailure _ => true
  | _ => false
  end.

(** Everything but the console lines. *)
Definition acts (tr : list effect) : list effect :=
  filter (λ e, is_console e = false) tr.

(** The processes the program still holds a handle to, backend first. *)
Definition tracked (s : app) : list nat :=
  option_list (pythonProcess s) ++ option_list (nextProcess s).

Definition alive (s : app) (pid : nat) : bool :=
  match children s !! pid with
  | Some c => ch_alive c
  | None => false
  end.

(** What a step from [s] to [s'] added to the trace. *)
Definition new_effects (s s' : app) : list effect :=
  drop (length (trace s)) (trace s').

(** The state without the trace: the three variables, the windows, the
    child processes and the clock. *)
Definition session (s : app)
  : option nat * option nat * option nat * list (nat * window_kind) * nat *
    list child * Z :=
  (mainWindow s, pythonProcess s, nextProcess s, windows s, next_window s,
   children s, clock s).

(** Whether process [pid] ignores [SIGTERM]. *)
Definition ignoring (s : app) (pid : nat) : bool :=
  match children s !! pid with
  | Some c => ch_ignores_term c
  | None => false
  end.

(** The signals process [pid] has received, in order. *)
Definition received (s : app) (pid : nat) : list signal :=
  match children s !! pid with
  | Some c => ch_signals c
  | None => []
  end.

(** What [cleanup] prints and sends for one of the two variables. *)
Definition stop_effects (line : string) (proc : option nat) : list effect :=
  match proc with
  | Some pid => [Log line; Kill pid SIGTERM]
  | None => []
  end.

Definition cleanup_effects (s : app) : list effect :=
  Log "Cleaning up..." ::
  stop_effects "Stopping backend..." (pythonProcess s) ++
  stop_effects "Stopping frontend..." (nextProcess s).

(** What the [SIGTERM] of [cleanup] does to the process a variable holds. *)
Definition terminate (proc : option nat) (cs : list child) : list child :=
  match proc with
  | Some pid => alter (deliver SIGTERM) pid cs
  | None => cs
  end.

(** The state of the startup callback when it reaches its first [await]. *)
Definition launched (h : host) (s : app) : app :=
  emit (Log "Waiting for backend to be ready...")
    (startFrontend h
       (startBackend h
          (new_window LoadingWindow
             (emit (Log "Price Optimizer AI starting...") s)).2)).

(** The startup callback from ['Backend is ready!'] on, [s] being the state
    in which the first [await] left it. *)
Definition after_backend_ready (loading : nat) (fo : list Probe.outcome)
    (s : app) : startup_result * app :=
  let s := emit (Log "Backend is ready!") s in
  let s := emit (Log "Waiting for frontend to be ready...") s in
  let '(r, s) := await_checkServer FRONTEND_PORT fo s in
  match r with
  | None => (Suspended, s)
  | Some (Probe.Rejected e) => (Failed e, startup_failed loading e s)
  | Some (Probe.Resolved _) =>
      let s := emit (Log "Frontend is ready!") s in
      let s := close_window loading s in
      let '(w, s) := createWindow s in
      (Started w, emit (LoadURL w FRONTEND_PORT) s)
  end.

(** The effects of the three phases of the startup callback. *)
Definition startup_prologue (h : host) (s : app) : list effect :=
  [Log "Price Optimizer AI starting...";
   NewWindow LoadingWindow (next_window s);
   Log "Starting Python backend...";
   Spawn Backend (length (children s)) (backend_command h);
   Log "Starting Next.js frontend...";
   Spawn Frontend (S (length (children s))) (frontend_command h);
   Log "Waiting for backend to be ready..."].

(** The state in which the callback waits for the backend's check and
    the events that arrive meanwhile have been handled. *)
Definition backend_awaited (h : host) (bo : list Probe.outcome)
    (during : list event) (s : app) : app :=
  handle_all h during (await_checkServer BACKEND_PORT bo (launched h s)).2.

(** The same for the frontend's check, from the state in which the
    backend's check resolved. *)
Definition frontend_awaited (h : host) (fo : list Probe.outcome)
    (during : list event) (s : app) : app :=
  handle_all h during
    (await_checkServer FRONTEND_PORT fo
       (emit (Log "Waiting for frontend to be ready...")
          (emit (Log "Backend is ready!") s))).2.


(** A process that is not running or that ignores [SIGTERM]. *)
Definition stopped_or_ignoring (c : child) : bool :=
  negb (ch_alive c) || ch_ignores_term c.

(** In a session the children are the backend and the frontend, with
    pids 0 and 1; each is either still held by its variable, or its
    variable is [null] and it is not running or ignores [SIGTERM]. *)
Definition accounted (s : app) : Prop :=
  ∃ b f,
    children s = [b; f] ∧
    ch_service b = Backend ∧ ch_service f = Frontend ∧
    (pythonProcess s = Some 0%nat ∨
     (pythonProcess s = None ∧ stopped_or_ignoring b = true)) ∧
    (nextProcess s = Some 1%nat ∨
     (nextProcess s = None ∧ stopped_or_ignoring f = true)).

(** ** The launcher script *)

Module StartScript.

Inductive step : Type :=
| Echo (msg : string)
| Cd (dir : string)
| Background (svc : service)
| Curl (url : string)
| Sleep (seconds : Z)
| Electron
| Wait
| Pkill (sig : signal)
| Exit (status : Z).

(** What the script cannot decide: whether the two [cd]s succeed, what the
    i-th [curl] of each loop finds, and the status of
    [pnpm electron:start]. *)
Record env : Type := Env {
  cd_project_ok : bool;
  cd_api_ok : bool;
  backend_health : nat → bool;
  frontend_up : nat → bool;
  electron_status : Z
}.

(** [cleanup()]: [pkill -P $$] sends the default signal, then [exit 0]. *)
Definition cleanup : list step :=
  [Echo "Shutting down services..."; Pkill SIGTERM; Exit 0].

(** [for i in {1..30}; do if curl -s url; then echo msg; break; fi; sleep 1; done] *)
Fixpoint poll (url msg : string) (ready : nat → bool) (rounds : list nat)
  : list step :=
  match rounds with
  | [] => []
  | i :: rest =>
      Curl url ::
      (if ready i then [Echo msg] else Sleep 1 :: poll url msg ready rest)
  end.

Definition rounds : list nat := seq 1 30.

(** From [pnpm start &] to the end of the file.  Under [set -e] a failing
    [pnpm electron:start] ends the script before [wait]; either way the
    [EXIT] trap runs [cleanup]. *)
Definition launch_frontend (e : env) : list step :=
  [Echo "Starting Next.js frontend on port 3000..."; Background Frontend;
   Echo "Waiting for frontend to be ready..."] ++
  poll "http://localhost:3000" "Frontend is ready!" (frontend_up e) rounds ++
  [Echo "Starting Electron app..."; Electron] ++
  (if electron_status e =? 0 then [Wait] else []) ++
  cleanup.

(** Everything after [trap cleanup SIGINT SIGTERM EXIT]. *)
Definition supervised (e : env) : list step :=
  [Echo "Starting Python backend on port 8000..."; Cd "$PROJECT_DIR/api"] ++
  (if cd_api_ok e then
     [Background Backend; Cd "$PROJECT_DIR";
      Echo "Waiting for backend to be ready..."] ++
     poll "http://localhost:8000/routes/health" "Backend is ready!"
          (backend_health e) rounds ++
     launch_frontend e
   else cleanup).

(** The whole script, when no signal arrives while it runs ([run_with],
    below, has the signals); a [cd] that fails before the trap is
    installed ends it with that command's status. *)
Definition run (e : env) : list step :=
  [Echo "Starting Price Optimizer AI..."; Cd "$PROJECT_DIR"] ++
  (if cd_project_ok e then supervised e else [Exit 1]).

(** The status the script ends with: that of the first [exit] reached. *)
Fixpoint exit_status (tr : list step) : option Z :=
  match tr with
  | [] => None
  | Exit st :: _ => Some st
  | _ :: rest => exit_status rest
  end.

(** Services in the order in which the script put them in the background. *)
Definition spawned_services (tr : list step) : list service :=
  omap (λ st, match st with Background svc => Some svc | _ => None end) tr.

(** Signals the script sent to its children. *)
Definition signals (tr : list step) : list signal :=
  omap (λ st, match st with Pkill sig => Some sig | _ => None end) tr.



(** *** The script and a signal *)

(** Everything between [trap cleanup SIGINT SIGTERM EXIT] and
    [pnpm electron:start]; the branch taken when [cd "$PROJECT_DIR/api"]
    succeeded. *)
Definition until_electron (e : env) : list step :=
  [Background Backend; Cd "$PROJECT_DIR";
   Echo "Waiting for backend to be ready..."] ++
  poll "http://localhost:8000/routes/health" "Backend is ready!"
       (backend_health e) rounds ++
  [Echo "Starting Next.js frontend on port 3000..."; Background Frontend;
   Echo "Waiting for frontend to be ready..."] ++
  poll "http://localhost:3000" "Frontend is ready!" (frontend_up e) rounds ++
  [Echo "Starting Electron app..."].

(** The commands the script runs after installing its trap, up to where
    it ends by itself: the end of the file, or a failing command under
    [set -e]. *)
Definition body (e : env) : list step :=
  [Echo "Starting Python backend on port 8000..."; Cd "$PROJECT_DIR/api"] ++
  (if cd_api_ok e then
     until_electron e ++
     Electron :: (if electron_status e =? 0 then [Wait] else [])
   else []).

(** The trap on [SIGINT] or [SIGTERM]: [cleanup] runs, and its [exit 0]
    sets off the [EXIT] trap, which runs [cleanup] once more. *)
Definition cleanup_on_signal : list step :=
  [Echo "Shutting down services..."; Pkill SIGTERM] ++ cleanup.

(** A run of the script.  [signal = Some n]: a [SIGINT] or [SIGTERM] is
    handled when [n] commands of the body have completed (all of them
    when [n] is larger); [None]: no signal arrives and the script ends by
    itself, through the [EXIT] trap.  [run] is the latter case. *)
Definition run_with (e : env) (signal : option nat) : list step :=
  [Echo "Starting Price Optimizer AI..."; Cd "$PROJECT_DIR"] ++
  (if cd_project_ok e then
     match signal with
     | Some n => take n (body e) ++ cleanup_on_signal
     | None => body e ++ cleanup
     end
   else [Exit 1]).

(** Number of commands of the body before [pnpm electron:start]. *)
Definition electron_at (e : env) : nat := 2 + length (until_electron e).

End StartScript.

(** ** A whole session, and what holds of its states *)

(** The application from its launch: the startup callback, then any
    sequence of events. *)
Definition run_app (h : host) (bo fo : list Probe.outcome) (evs : list event)
  : app :=
  handle_all h evs (startup h bo fo initial).2.

(** A variable of the program holds either nothing or the handle of a
    process of its own service that was never signalled. *)
Definition holds (s : app) (proc : option nat) (svc : service) : Prop :=
  match proc with
  | Some pid =>
      ∃ c, children s !! pid = Some c ∧ ch_service c = svc ∧ ch_signals c = []
  | None => True
  end.

(** A process was signalled at most once, with [SIGTERM]. *)
Definition signalled_once (c : child) : Prop :=
  ch_signals c = [] ∨ ch_signals c = [SIGTERM].

Definition consistent (s : app) : Prop :=
  holds s (pythonProcess s) Backend ∧
  holds s (nextProcess s) Frontend ∧
  Forall signalled_once (children s).

(** Effects that start no process and send no signal but [SIGTERM]. *)
Definition harmless (es : list effect) : Prop :=
  spawned_services es = [] ∧ Forall (λ x, x.2 = SIGTERM) (signalled es).

(** ** The options of [spawn] *)

(** [String(n)] for an integer. *)
Definition to_String (n : Z) : string :=
  NilZero.string_of_int (Z.to_int n).

(** [env: { ...process.env, PYTHONUNBUFFERED: '1' }] *)
Definition backend_env (process_env : gmap string string) : gmap string string :=
  <["PYTHONUNBUFFERED" := "1"]> process_env.

(** [`http://localhost:${BACKEND_PORT}`] *)
Definition api_url : string := "http://localhost:" +:+ to_String BACKEND_PORT.

(** The [env] option of the two branches of [startFrontend]; only the
    packaged one sets [HOSTNAME]. *)
Definition frontend_env (h : host) (process_env : gmap string string)
  : gmap string string :=
  if isPackaged h then
    <["NEXT_PUBLIC_API_URL" := api_url]>
      (<["HOSTNAME" := "127.0.0.1"]>
         (<["PORT" := to_String FRONTEND_PORT]> process_env))
  else
    <["NEXT_PUBLIC_API_URL" := api_url]>
      (<["PORT" := to_String FRONTEND_PORT]> process_env).

(** ** The preload script *)

Module Preload.

(** [validChannels] of [send] and of [receive]. *)
Definition send_channels : list string :=
  ["app:minimize"; "app:maximize"; "app:close"].

Definition receive_channels : list string :=
  ["app:update-available"; "app:error"].

(** [send(channel, data)]: the messages handed to [ipcRenderer.send]. *)
Definition send {D : Type} (channel : string) (data : D) : list (string * D) :=
  if bool_decide (channel ∈ send_channels) then [(channel, data)] else [].

(** [receive(channel, func)]: the listener handed to [ipcRenderer.on], if
    any; it drops the event and passes the other arguments on. *)
Definition receive {E A R : Type} (channel : string) (func : list A → R)
  : option (string * (E → list A → R)) :=
  if bool_decide (channel ∈ receive_channels)
  then Some (channel, λ _ args, func args)
  else None.

End Preload.

(** ** The Next.js configuration *)

Module NextConfig.

(** A value of [config.resolve.fallback]: [false] or a module to use
    instead. *)
Inductive fallback : Type :=
| Disabled
| Polyfill (module : string).

(** The webpack configuration: [resolve.fallback], which may be
    [undefined], and everything else. *)
Record config (A : Type) : Type := Config {
  resolve_fallback : option (gmap string fallback);
  others : A
}.

Arguments Config {A} _ _.
Arguments resolve_fallback {A} _.
Arguments others {A} _.

(** [{ ...fallback }]: spreading [undefined] gives no key. *)
Definition spread (f : option (gmap string fallback)) : gmap string fallback :=
  default ∅ f.

(** [webpack: (config, { isServer }) => { ... return config; }] *)
Definition webpack {A : Type} (c : config A) (isServer : bool) : config A :=
  if negb isServer then
    Config (Some (<["tls" := Disabled]>
                    (<["net" := Disabled]>
                       (<["fs" := Disabled]> (spread (resolve_fallback c))))))
           (others c)
  else c.

End NextConfig.

(** ** More about the launcher script *)

(** Seconds the script spent in [sleep]. *)
Definition slept (tr : list StartScript.step) : Z :=
  foldr (λ st acc, match st with StartScript.Sleep n => n + acc | _ => acc end)
        0 tr.

(** Number of times the script ran [pnpm electron:start]. *)
Definition electron_runs (tr : list StartScript.step) : nat :=
  length (filter (λ st, match st with StartScript.Electron => true | _ => false end = true) tr).

(** One unsuccessful round of a polling loop. *)
Definition failed_round (url : string) : list StartScript.step :=
  [StartScript.Curl url; StartScript.Sleep 1].

(** No step sleeps for a negative time. *)
Definition sleeps_forward (tr : list StartScript.step) : Prop :=
  Forall (λ st, match st with StartScript.Sleep k => 0 <= k | _ => True end) tr.

(** * Properties *)

(** ** The readiness check *)

Section ProbeFacts.
Import Probe.
Variables (port timeout startTime : Z).

Local Abbreviation check := (check port timeout startTime).
Local Abbreviation callbacks := (callbacks port timeout startTime).
Local Abbreviation reject_or_retry := (reject_or_retry port timeout startTime).

Lemma check_nil (now : Z) :
  check now [] = [Request now port (request_path port)].
Proof. reflexivity. Qed.

Lemma check_cons (now : Z) (o : outcome) (rest : list outcome) :
  check now (o :: rest) =
    Request now port (request_path port) :: callbacks o now (λ t, check t rest).
Proof. reflexivity. Qed.

(** After a socket timeout both failure handlers run, each with its own
    retry. *)
Lemma callbacks_timeout (lag : N) (forked : list outcome) (now : Z)
    (retry : Z → list action) :
  callbacks (SocketTimeout lag forked) now retry =
    Destroy (now + REQUEST_TIMEOUT) ::
    reject_or_retry (now + REQUEST_TIMEOUT) retry ++
    reject_or_retry (now + REQUEST_TIMEOUT + Z.of_N lag) (λ t, check t forked).
Proof. reflexivity. Qed.

Lemma callbacks_error (d : N) (now : Z) (retry : Z → list action) :
  callbacks (ConnError d) now retry = reject_or_retry (now + Z.of_N d) retry.
Proof. reflexivity. Qed.

Lemma callbacks_response (st : Z) (d : N) (now : Z) (retry : Z → list action) :
  callbacks (Response st d) now retry = [Resolve (now + Z.of_N d) true].
Proof. reflexivity. Qed.

Lemma reject_when_expired (t : Z) (again : Z → list action) :
  expired startTime timeout t = true →
  reject_or_retry t again = [Reject t (DidNotStart port timeout)].
Proof. unfold Probe.reject_or_retry. intros ->. reflexivity. Qed.



Lemma resolves_cons (a : action) (run : list action) :
  resolves (a :: run) = ((if is_resolve a then 1 else 0) + resolves run)%nat.
Proof.
  unfold resolves. rewrite filter_cons.
  destruct (is_resolve a); case_decide; cbn; congruence.
Qed.

Lemma resolves_app (run run' : list action) :
  resolves (run ++ run') = (resolves run + resolves run')%nat.
Proof. unfold resolves. rewrite filter_app, length_app. reflexivity. Qed.

Lemma responses_cons (o : outcome) (rest : list outcome) :
  responses (o :: rest) = (responses_of o + responses rest)%nat.
Proof. reflexivity. Qed.

Lemma resolves_retry (t : Z) (again : Z → list action) (n : nat) :
  (resolves (again (t + POLL_DELAY)%Z) ≤ n)%nat →
  (resolves (reject_or_retry t again) ≤ n)%nat.
Proof.
  unfold Probe.reject_or_retry. destruct (expired _ _ _).
  - rewrite resolves_cons. cbn [is_resolve].
    change (resolves []) with 0%nat. lia.
  - rewrite resolves_cons. cbn [is_resolve]. lia.
Qed.

(** [resolve] is called at most once per response. *)
Lemma resolves_check (outs : list outcome) :
  ∀ now, (resolves (check now outs) ≤ responses outs)%nat.
Proof.
  induction outs as [|st d rest IH|d rest IH|lag forked rest IHf IH]
    using outcomes_ind; intros now.
  - rewrite check_nil, resolves_cons. cbn [is_resolve].
    change (resolves []) with 0%nat. cbn. lia.
  - rewrite responses_cons, check_cons, callbacks_response, !resolves_cons.
    cbn [is_resolve responses_of]. change (resolves []) with 0%nat. lia.
  - rewrite check_cons, callbacks_error, resolves_cons, responses_cons.
    cbn [is_resolve responses_of].
    pose proof (resolves_retry (now + Z.of_N d) (λ t, check t rest) _ (IH _)).
    lia.
  - rewrite check_cons, callbacks_timeout, !resolves_cons, resolves_app,
      responses_cons.
    cbn [is_resolve responses_of].
    change (foldr _ 0%nat forked) with (responses forked).
    pose proof (resolves_retry (now + REQUEST_TIMEOUT) (λ t, check t rest) _ (IH _)).
    pose proof (resolves_retry (now + REQUEST_TIMEOUT + Z.of_N lag)
                  (λ t, check t forked) _ (IHf _)).
    lia.
Qed.

(** *** The settlement of a run *)

Lemma earlier_assoc (a b c : option (settlement * Z)) :
  earlier a (earlier b c) = earlier (earlier a b) c.
Proof.
  destruct a as [[ra ta]|], b as [[rb tb]|], c as [[rc tc]|]; cbn;
    try reflexivity;
    repeat (match goal with
            | |- context [?x <? ?y] => destruct (Z.ltb_spec x y); cbn
            end); try reflexivity; lia.
Qed.

Lemma settled_app (run run' : list action) :
  settled (run ++ run') = earlier (settled run) (settled run').
Proof.
  induction run as [|a run IH]; [reflexivity|].
  cbn [settled List.app]. rewrite IH. apply earlier_assoc.
Qed.

Lemma earlier_cases (a b : option (settlement * Z)) :
  earlier a b = a ∨ earlier a b = b.
Proof.
  destruct a as [[ra ta]|], b as [[rb tb]|]; cbn; auto.
  destruct (tb <? ta); auto.
Qed.

Lemma earlier_some_l (a b : option (settlement * Z)) :
  a ≠ None → earlier a b ≠ None.
Proof.
  destruct a as [[ra ta]|], b as [[rb tb]|]; cbn; try congruence.
  destruct (tb <? ta); congruence.
Qed.

Lemma earlier_some_r (a b : option (settlement * Z)) :
  b ≠ None → earlier a b ≠ None.
Proof.
  destruct a as [[ra ta]|], b as [[rb tb]|]; cbn; try congruence.
  destruct (tb <? ta); congruence.
Qed.

(** The settlement of a run is one of its calls of [resolve] or [reject]. *)
Lemma settled_in (run : list action) (x : settlement * Z) :
  settled run = Some x → ∃ a, a ∈ run ∧ settles a = Some x.
Proof.
  induction run as [|a run IH]; [discriminate|].
  cbn [settled]. intros Hs.
  destruct (earlier_cases (settles a) (settled run)) as [He|He];
    rewrite He in Hs.
  - exists a. split; [left | exact Hs].
  - destruct (IH Hs) as (b & Hb & Hx). exists b. split; [right; exact Hb | exact Hx].
Qed.

(** *** Bounds *)

Local Abbreviation timely := (timely port timeout startTime).

Lemma every_cons (p : outcome → bool) (o : outcome) (rest : list outcome) :
  every p (o :: rest) = every_outcome p o && every p rest.
Proof. reflexivity. Qed.

Lemma every_timeout (p : outcome → bool) (lag : N) (forked : list outcome) :
  every_outcome p (SocketTimeout lag forked) =
    p (SocketTimeout lag forked) && every p forked.
Proof. reflexivity. Qed.

Lemma every_impl (p q : outcome → bool) (outs : list outcome) :
  (∀ o, p o = true → q o = true) → every p outs = true → every q outs = true.
Proof.
  intros Hpq.
  induction outs as [|st d rest IH|d rest IH|lag forked rest IHf IH]
    using outcomes_ind; [reflexivity| | |];
    rewrite !every_cons, ?every_timeout; cbn [every_outcome];
    rewrite ?andb_true_iff, ?andb_true_r; intuition.
Qed.

Lemma timely_retry (L t : Z) (again : Z → list action) :
  t - startTime <= timeout + POLL_DELAY + L →
  (t - startTime <= timeout → Forall (timely L) (again (t + POLL_DELAY))) →
  Forall (timely L) (reject_or_retry t again).
Proof.
  intros Ht Hagain. unfold Probe.reject_or_retry, expired.
  destruct (Z.gtb_spec (t - startTime) timeout) as [Hgt|Hle].
  - repeat constructor. lia. exact Ht.
  - constructor; [exact I|]. apply Hagain. lia.
Qed.

Lemma timely_check (L : Z) (outs : list outcome) :
  every (λ o, duration o <=? L) outs = true →
  ∀ now,
    now - startTime <= timeout + POLL_DELAY →
    Forall (timely L) (check now outs).
Proof.
  induction outs as [|st d rest IH|d rest IH|lag forked rest IHf IH]
    using outcomes_ind; intros Hev now Hnow.
  - repeat constructor. exact Hnow.
  - rewrite every_cons in Hev. cbn in Hev.
    apply andb_true_iff in Hev as [Hd _]. rewrite andb_true_r in Hd.
    apply Z.leb_le in Hd. repeat constructor; [exact Hnow|]. cbn. lia.
  - rewrite every_cons in Hev. cbn [every_outcome duration] in Hev.
    apply andb_true_iff in Hev as [Hd Hrest]. rewrite andb_true_r in Hd.
    apply Z.leb_le in Hd.
    rewrite check_cons, callbacks_error. constructor; [exact Hnow|].
    apply timely_retry; [lia|].
    intros Ht. apply IH; [exact Hrest | unfold POLL_DELAY in *; lia].
  - rewrite every_cons, every_timeout in Hev. cbn [duration] in Hev.
    apply andb_true_iff in Hev as [Hd Hrest].
    apply andb_true_iff in Hd as [Hd Hforked].
    apply Z.leb_le in Hd.
    rewrite check_cons, callbacks_timeout.
    constructor; [exact Hnow|]. constructor; [exact I|].
    apply Forall_app. split.
    + apply timely_retry; [lia|].
      intros Ht. apply IH; [exact Hrest | unfold POLL_DELAY in *; lia].
    + apply timely_retry; [lia|].
      intros Ht. apply IHf; [exact Hforked | unfold POLL_DELAY in *; lia].
Qed.

Lemma responses_none (outs : list outcome) :
  every (λ o, negb (is_response o)) outs = true → responses outs = 0%nat.
Proof.
  induction outs as [|st d rest IH|d rest IH|lag forked rest IHf IH]
    using outcomes_ind; intros Hev.
  - reflexivity.
  - discriminate.
  - rewrite every_cons in Hev. rewrite responses_cons. apply IH, Hev.
  - rewrite every_cons, every_timeout in Hev. cbn [is_response negb] in Hev.
    apply andb_true_iff in Hev as [Hf Hrest]. rewrite responses_cons.
    cbn [responses_of]. change (foldr _ 0%nat forked) with (responses forked).
    rewrite (IHf Hf), (IH Hrest). reflexivity.
Qed.

Lemma resolves_in (a : action) (run : list action) :
  a ∈ run → is_resolve a = true → (0 < resolves run)%nat.
Proof.
  intros Hin Hr. induction Hin as [a run|a b run _ IH];
    rewrite resolves_cons; [rewrite Hr | specialize (IH Hr)]; lia.
Qed.

(** A chain of failures that is long enough for the time left reaches
    the deadline, whatever its forks do. *)
Lemma check_settles (n : nat) :
  ∀ (now : Z) (outs : list outcome),
    timeout - (now - startTime) < POLL_DELAY * Z.of_nat n →
    (n < length outs)%nat →
    every (λ o, negb (is_response o)) outs = true →
    settled (check now outs) ≠ None.
Proof.
  induction n as [|n IH]; intros now [|o rest] Hbudget Hlen Hev;
    cbn [length] in Hlen; try lia;
    rewrite every_cons in Hev; apply andb_true_iff in Hev as [Ho Hrest];
    rewrite check_cons; cbn [settled settles earlier];
    destruct o as [st d|d|lag forked]; try discriminate;
    rewrite ?callbacks_error, ?callbacks_timeout;
    cbn [settled settles earlier]; rewrite ?settled_app;
    try apply earlier_some_l;
    unfold Probe.reject_or_retry at 1, expired.
  - destruct (Z.gtb_spec (now + Z.of_N d - startTime) timeout); [discriminate|lia].
  - destruct (Z.gtb_spec (now + REQUEST_TIMEOUT - startTime) timeout);
      [discriminate | unfold REQUEST_TIMEOUT in *; lia].
  - destruct (Z.gtb_spec (now + Z.of_N d - startTime) timeout); [discriminate|].
    cbn [settled settles earlier]. apply IH; [unfold POLL_DELAY in *|..]; try lia.
    exact Hrest.
  - destruct (Z.gtb_spec (now + REQUEST_TIMEOUT - startTime) timeout);
      [discriminate|].
    cbn [settled settles earlier].
    apply IH; [unfold POLL_DELAY, REQUEST_TIMEOUT in *|..]; try lia.
    exact Hrest.
Qed.



Lemma retries_needed :
  timeout - (startTime - startTime) <
    POLL_DELAY * Z.of_nat (Z.to_nat (timeout / POLL_DELAY + 1)).
Proof.
  unfold POLL_DELAY.
  pose proof (Z.mod_pos_bound timeout 500 ltac:(lia)).
  pose proof (Z.div_mod timeout 500 ltac:(lia)).
  lia.
Qed.

End ProbeFacts.

Section ProbeClaims.
Import Probe.



(** C6 (as stated, refuted): with a deadline of 1000 ms, a request that
    gets no answer is not abandoned when the deadline passes: it is
    awaited until its own socket timeout, and the check rejects 2000 ms
    after the start, which is also later than 1300 ms. *)
Lemma deadline_is_only_checked_when_an_attempt_fails :
  checkServer BACKEND_PORT 1000 0 [SocketTimeout 1 []] =
    [Request 0 BACKEND_PORT "/routes/health";
     Destroy 2000;
     Reject 2000 (DidNotStart BACKEND_PORT 1000);
     Reject 2001 (DidNotStart BACKEND_PORT 1000)] ∧
  settled (checkServer BACKEND_PORT 1000 0 [SocketTimeout 1 []]) =
    Some (Rejected (DidNotStart BACKEND_PORT 1000), 2000) ∧
  ¬ (2000 <= 1300).
Proof. cbn. repeat split; lia. Qed.

(** C6 (amended): against an endpoint that never answers, a check whose
    attempts go on long enough rejects, with the error of the check, at
    the first failure seen after the deadline.  The deadline is compared
    with the clock only in the failure handlers, so a request in flight
    is awaited (one that hangs, until its socket timeout of 2000 ms), and
    a retry starts [POLL_DELAY] = 500 ms after the failure before it; so,
    when every attempt runs its last callback within [L] ms, the
    rejection comes more than [timeout] and at most [timeout + 500 + L]
    ms after the start. *)
Theorem rejection_time_bounds
    (port timeout now L : Z) (outs : list outcome) :
  0 <= timeout →
  every (fails_within L) outs = true →
  (Z.to_nat (timeout / POLL_DELAY + 1) < length outs)%nat →
  ∃ T,
    settled (checkServer port timeout now outs) =
      Some (Rejected (DidNotStart port timeout), T) ∧
    timeout < T - now <= timeout + POLL_DELAY + L.
Proof.
  intros Htimeout Hev Hlen.
  assert (Hfail : every (λ o, negb (is_response o)) outs = true).
  { eapply every_impl; [|exact Hev]. unfold fails_within. intros o Ho.
    apply andb_true_iff in Ho. tauto. }
  assert (Hdur : every (λ o, duration o <=? L) outs = true).
  { eapply every_impl; [|exact Hev]. unfold fails_within. intros o Ho.
    apply andb_true_iff in Ho. tauto. }
  pose proof (check_settles port timeout now _ now outs
                (retries_needed timeout now) Hlen Hfail) as Hsome.
  unfold checkServer.
  destruct (settled (check port timeout now now outs)) as [[r T]|] eqn:Hs;
    [|congruence].
  destruct (settled_in _ _ Hs) as (a & Hin & Ha).
  assert (Htimely : timely port timeout now L a).
  { eapply Forall_forall; [|exact Hin].
    apply timely_check; [exact Hdur | unfold POLL_DELAY; lia]. }
  exists T. destruct a as [t p q|t|t v|t e|t d]; try discriminate.
  - exfalso.
    pose proof (resolves_in _ _ Hin eq_refl).
    pose proof (resolves_check port timeout now outs now).
    rewrite (responses_none _ Hfail) in *. lia.
  - cbn in Ha, Htimely. destruct Htimely as [-> Hb].
    assert (t = T) by congruence. subst t.
    split; [congruence | exact Hb].
Qed.

Lemma rejection_time_bounds_witness :
  ∃ T,
    settled (checkServer BACKEND_PORT 1000 0
               [ConnError 3; ConnError 4; SocketTimeout 1 [ConnError 2]; ConnError 3]) =
      Some (Rejected (DidNotStart BACKEND_PORT 1000), T) ∧
    1000 < T - 0 <= 1000 + POLL_DELAY + 2001.
Proof.
  apply (rejection_time_bounds BACKEND_PORT 1000 0 2001
           [ConnError 3; ConnError 4; SocketTimeout 1 [ConnError 2]; ConnError 3]).
  - lia.
  - reflexivity.
  - apply Nat.ltb_lt. reflexivity.
Defined.

(** C9 (the code departs from the claim): a check with a deadline of 3000
    ms whose first request gets no answer.  At 2000 ms the ['timeout']
    handler destroys the request and arms a retry; the ['error'] handler,
    run by the destroyed request 1 ms later, arms a second one.  The
    request of the first retry (2500 ms) fails after 600 ms, past the
    deadline, and the promise is rejected at 3100 ms; the request of the
    second retry (2501 ms) had failed after 200 ms, before the deadline,
    and armed a timer that issues one more request at 3201 ms, after the
    rejection.  The same with the deadline of the two call sites, 60000
    ms: after a first request without an answer, the retries of one chain
    are refused within 1 ms and those of the other within 2 ms; the
    promise is rejected at 60116 ms and the last request is issued at
    60231 ms. *)
Theorem forked_retry_polls_after_rejection :
  let run := checkServer BACKEND_PORT 3000 0
               [SocketTimeout 1 [ConnError 200]; ConnError 600] in
  let startup_run :=
    checkServer BACKEND_PORT STARTUP_TIMEOUT 0
      (SocketTimeout 1 (repeat (ConnError 2) 116) :: repeat (ConnError 1) 116) in
  run = [Request 0 BACKEND_PORT "/routes/health";
         Destroy 2000;
         SetTimeout 2000 POLL_DELAY;
         Request 2500 BACKEND_PORT "/routes/health";
         Reject 3100 (DidNotStart BACKEND_PORT 3000);
         SetTimeout 2001 POLL_DELAY;
         Request 2501 BACKEND_PORT "/routes/health";
         SetTimeout 2701 POLL_DELAY;
         Request 3201 BACKEND_PORT "/routes/health"] ∧
  settled run = Some (Rejected (DidNotStart BACKEND_PORT 3000), 3100) ∧
  request_times run = [0; 2500; 2501; 3201] ∧
  timers run = 3%nat ∧
  3100 < 3201 ∧
  settled startup_run =
    Some (Rejected (DidNotStart BACKEND_PORT STARTUP_TIMEOUT), 60116) ∧
  last (request_times startup_run) = Some 60231.
Proof. vm_compute. repeat split. Qed.

End ProbeClaims.

(** ** The launcher script *)

Section ScriptFacts.

Lemma poll_never_exits (url msg : string) (ready : nat → bool)
    (rounds : list nat) (k : list StartScript.step) :
  StartScript.exit_status (StartScript.poll url msg ready rounds ++ k) =
    StartScript.exit_status k.
Proof.
  induction rounds as [|i rounds IH]; [reflexivity|].
  cbn. destruct (ready i); [reflexivity | exact IH].
Qed.

Lemma poll_spawns_nothing (url msg : string) (ready : nat → bool)
    (rounds : list nat) :
  StartScript.spawned_services (StartScript.poll url msg ready rounds) = [].
Proof.
  induction rounds as [|i rounds IH]; [reflexivity|].
  cbn. destruct (ready i); [reflexivity | exact IH].
Qed.

Lemma poll_sends_nothing (url msg : string) (ready : nat → bool)
    (rounds : list nat) :
  StartScript.signals (StartScript.poll url msg ready rounds) = [].
Proof.
  induction rounds as [|i rounds IH]; [reflexivity|].
  cbn. destruct (ready i); [reflexivity | exact IH].
Qed.


End ScriptFacts.

(** ** The launcher script and a signal *)

Section ScriptSignalFacts.
Import StartScript.

Lemma supervised_body (e : env) : supervised e = body e ++ cleanup.
Proof.
  unfold supervised, body, until_electron, launch_frontend.
  destruct (cd_api_ok e); [|reflexivity].
  generalize rounds. intros rs.
  rewrite <- !app_assoc. cbn [List.app]. rewrite <- ?app_assoc. reflexivity.
Qed.

(** Without a signal the script runs as [run] has it. *)
Lemma run_with_none (e : env) : run_with e None = run e.
Proof. unfold run_with, run. rewrite supervised_body. reflexivity. Qed.

Lemma signals_app (tr tr' : list step) :
  signals (tr ++ tr') = signals tr ++ signals tr'.
Proof. apply omap_app. Qed.

Lemma signals_take (tr : list step) :
  signals tr = [] → ∀ n, signals (take n tr) = [].
Proof.
  induction tr as [|st tr IH]; intros H n; [destruct n; reflexivity|].
  destruct n as [|n]; [reflexivity|].
  destruct st; try discriminate; exact (IH H n).
Qed.

(** The body of the script sends no signal and calls no [exit]. *)
Lemma body_signals (e : env) : signals (body e) = [].
Proof.
  unfold body, until_electron. destruct (cd_api_ok e); [|reflexivity].
  generalize rounds. intros rs.
  rewrite !signals_app, !poll_sends_nothing.
  destruct (electron_status e =? 0); reflexivity.
Qed.

Lemma exit_status_app (tr tr' : list step) :
  exit_status tr = None → exit_status (tr ++ tr') = exit_status tr'.
Proof.
  induction tr as [|st tr IH]; intros H; [reflexivity|].
  destruct st; try discriminate; exact (IH H).
Qed.

Lemma exit_status_take (tr : list step) :
  exit_status tr = None → ∀ n, exit_status (take n tr) = None.
Proof.
  induction tr as [|st tr IH]; intros H n; [destruct n; reflexivity|].
  destruct n as [|n]; [reflexivity|].
  destruct st; try discriminate; exact (IH H n).
Qed.

Lemma body_no_exit (e : env) : exit_status (body e) = None.
Proof.
  unfold body, until_electron. destruct (cd_api_ok e); [|reflexivity].
  generalize rounds. intros rs.
  rewrite <- !app_assoc. cbn. rewrite poll_never_exits. cbn.
  rewrite poll_never_exits.
  destruct (electron_status e =? 0); reflexivity.
Qed.

(** With or without a signal the script sends [SIGTERM] only, and twice
    when a signal set off its trap. *)
Lemma run_with_signals (e : env) (signal : option nat) :
  signals (run_with e signal) =
    if cd_project_ok e then
      match signal with
      | Some _ => [SIGTERM; SIGTERM]
      | None => [SIGTERM]
      end
    else [].
Proof.
  unfold run_with. destruct (cd_project_ok e); [|reflexivity].
  change (signals ([Echo "Starting Price Optimizer AI..."; Cd "$PROJECT_DIR"] ++ ?k))
    with (signals k).
  destruct signal as [n|]; rewrite signals_app.
  - rewrite (signals_take _ (body_signals e)). reflexivity.
  - rewrite body_signals. reflexivity.
Qed.

End ScriptSignalFacts.

(** ** Startup *)

Section StartupFacts.
Import Probe.

Lemma new_effects_app (s s' : app) (es : list effect) :
  trace s' = trace s ++ es → new_effects s s' = es.
Proof. unfold new_effects. intros ->. apply drop_app_length. Qed.

Lemma launched_trace (h : host) (s : app) :
  trace (launched h s) = trace s ++ startup_prologue h s.
Proof.
  destruct s as [mw pp np ws nw cs ck tr]. cbn.
  rewrite length_app, Nat.add_1_r, <- !app_assoc. reflexivity.
Qed.

Lemma launched_session (h : host) (s : app) :
  session (launched h s) =
    (mainWindow s, Some (length (children s)), Some (S (length (children s))),
     windows s ++ [(next_window s, LoadingWindow)], S (next_window s),
     children s ++ [Child Backend (ignores_term h Backend) true [];
                    Child Frontend (ignores_term h Frontend) true []],
     clock s).
Proof.
  destruct s as [mw pp np ws nw cs ck tr]. unfold session. cbn.
  rewrite length_app, Nat.add_1_r, <- !app_assoc. reflexivity.
Qed.

Lemma await_trace (port : Z) (outs : list outcome) (s : app) :
  trace (await_checkServer port outs s).2 =
    trace s ++ map Http (checkServer port STARTUP_TIMEOUT (clock s) outs).
Proof.
  unfold await_checkServer.
  destruct (settled _) as [[r T]|]; reflexivity.
Qed.

Lemma await_result (port : Z) (outs : list outcome) (s : app) :
  (await_checkServer port outs s).1 =
    fst <$> settled (checkServer port STARTUP_TIMEOUT (clock s) outs).
Proof.
  unfold await_checkServer.
  destruct (settled _) as [[r T]|]; reflexivity.
Qed.

(** Waiting for a check touches neither the variables, nor the windows,
    nor the processes. *)
Lemma await_keeps (port : Z) (outs : list outcome) (s : app) :
  let s' := (await_checkServer port outs s).2 in
  mainWindow s' = mainWindow s ∧ pythonProcess s' = pythonProcess s ∧
  nextProcess s' = nextProcess s ∧ windows s' = windows s ∧
  next_window s' = next_window s ∧ children s' = children s.
Proof.
  unfold await_checkServer.
  destruct (settled _) as [[r T]|]; cbn; repeat split.
Qed.

Lemma startup_unfold (h : host) (bo fo : list outcome) (s : app) :
  startup h bo fo s =
    let '(r, s1) := await_checkServer BACKEND_PORT bo (launched h s) in
    match r with
    | None => (Suspended, s1)
    | Some (Rejected e) => (Failed e, startup_failed (next_window s) e s1)
    | Some (Resolved _) => after_backend_ready (next_window s) fo s1
    end.
Proof. reflexivity. Qed.

Lemma await_clock (port : Z) (outs : list outcome) (s : app)
    (r : settlement) (T : Z) :
  settled (checkServer port STARTUP_TIMEOUT (clock s) outs) = Some (r, T) →
  clock (await_checkServer port outs s).2 = T.
Proof. unfold await_checkServer. intros ->. reflexivity. Qed.

Lemma cleanup_trace (s : app) :
  trace (cleanup s) = trace s ++ cleanup_effects s.
Proof.
  destruct s as [mw [p|] [q|] ws nw cs ck tr]; cbn;
    rewrite <- ?app_assoc; reflexivity.
Qed.

Lemma cleanup_session (s : app) :
  session (cleanup s) =
    (mainWindow s, None, None, windows s, next_window s,
     terminate (nextProcess s) (terminate (pythonProcess s) (children s)),
     clock s).
Proof. destruct s as [mw [p|] [q|] ws nw cs ck tr]; reflexivity. Qed.

Lemma cleanup_signalled (s : app) :
  signalled (cleanup_effects s) = map (λ pid, (pid, SIGTERM)) (tracked s).
Proof. destruct s as [mw [p|] [q|] ws nw cs ck tr]; reflexivity. Qed.

(** Once both variables are [null], [cleanup] only prints its first line. *)
Lemma cleanup_untracked (s : app) :
  pythonProcess s = None → nextProcess s = None →
  cleanup s = emit (Log "Cleaning up...") s.
Proof.
  destruct s as [mw pp np ws nw cs ck tr]. cbn. intros -> ->. reflexivity.
Qed.

Lemma cleanup_clears (s : app) :
  pythonProcess (cleanup s) = None ∧ nextProcess (cleanup s) = None.
Proof. destruct s as [mw [p|] [q|] ws nw cs ck tr]; split; reflexivity. Qed.

Lemma deliver_alive (c : child) :
  ch_alive (deliver SIGTERM c) = ch_alive c && ch_ignores_term c.
Proof. unfold deliver. destruct (ch_alive c) eqn:Ha; cbn; congruence. Qed.

Lemma deliver_ignores (sig : signal) (c : child) :
  ch_ignores_term (deliver sig c) = ch_ignores_term c.
Proof. unfold deliver. destruct (ch_alive c); reflexivity. Qed.

Lemma deliver_twice_alive (c : child) :
  ch_alive (deliver SIGTERM (deliver SIGTERM c)) =
    ch_alive c && ch_ignores_term c.
Proof.
  rewrite deliver_alive, deliver_ignores, deliver_alive.
  destruct (ch_alive c), (ch_ignores_term c); reflexivity.
Qed.

Lemma terminate_lookup (proc : option nat) (cs : list child) (pid : nat) :
  terminate proc cs !! pid =
    if bool_decide (proc = Some pid) then deliver SIGTERM <$> cs !! pid
    else cs !! pid.
Proof.
  destruct proc as [p|]; cbn.
  - case_bool_decide as Hp.
    + injection Hp as ->. apply list_lookup_alter_eq.
    + apply list_lookup_alter_ne. congruence.
  - case_bool_decide; [discriminate | reflexivity].
Qed.

Lemma startup_failed_trace (loading : nat) (e : error) (s : app) :
  trace (startup_failed loading e s) =
    trace s ++ LogFailure e :: CloseWindow loading :: cleanup_effects s ++ [AppQuit].
Proof.
  destruct s as [mw [p|] [q|] ws nw cs ck tr]; cbn;
    rewrite <- ?app_assoc; reflexivity.
Qed.

Lemma spawned_http (run : list action) : spawned (map Http run) = [].
Proof. induction run as [|a run IH]; [reflexivity | exact IH]. Qed.

Lemma spawned_cleanup (s : app) : spawned (cleanup_effects s) = [].
Proof. destruct s as [mw [p|] [q|] ws nw cs ck tr]; reflexivity. Qed.

Lemma spawned_services_http (run : list action) :
  spawned_services (map Http run) = [].
Proof. induction run as [|a run IH]; [reflexivity | exact IH]. Qed.

(** The state in which the first [await] leaves the callback. *)
Lemma awaited_backend (h : host) (bo : list outcome) (s : app) :
  let s1 := (await_checkServer BACKEND_PORT bo (launched h s)).2 in
  trace s1 = trace s ++ startup_prologue h s ++
             map Http (checkServer BACKEND_PORT STARTUP_TIMEOUT (clock s) bo) ∧
  cleanup_effects s1 =
    [Log "Cleaning up..."; Log "Stopping backend...";
     Kill (length (children s)) SIGTERM; Log "Stopping frontend...";
     Kill (S (length (children s))) SIGTERM].
Proof.
  cbn zeta.
  destruct (await_keeps BACKEND_PORT bo (launched h s)) as (_ & Hp & Hn & _).
  pose proof (launched_session h s) as Hl. unfold session in Hl.
  split.
  - rewrite await_trace, launched_trace, <- app_assoc.
    reflexivity.
  - unfold cleanup_effects. rewrite Hp, Hn.
    assert (pythonProcess (launched h s) = Some (length (children s))) as ->
      by congruence.
    assert (nextProcess (launched h s) = Some (S (length (children s)))) as ->
      by congruence.
    reflexivity.
Qed.

Lemma spawned_app (es es' : list effect) :
  spawned (es ++ es') = spawned es ++ spawned es'.
Proof. apply omap_app. Qed.

Lemma signalled_app (es es' : list effect) :
  signalled (es ++ es') = signalled es ++ signalled es'.
Proof. apply omap_app. Qed.

End StartupFacts.

(** ** Startup: what a failure leaves behind *)

Section StartupFailureFacts.
Import Probe.

Lemma signalled_http (run : list action) : signalled (map Http run) = [].
Proof. induction run as [|a run IH]; [reflexivity | exact IH]. Qed.

(** The state in which a failed check leaves the callback. *)
Lemma startup_failed_state (loading : nat) (e : error) (s : app) :
  let s' := startup_failed loading e s in
  tracked s' = [] ∧
  mainWindow s' = mainWindow s ∧
  windows s' = remove_window loading (windows s) ∧
  last (trace s') = Some AppQuit.
Proof.
  destruct s as [mw [p|] [q|] ws nw cs ck tr]; cbn; repeat split;
    rewrite ?app_assoc; apply last_snoc.
Qed.

Lemma launched_tracked (h : host) (s : app) :
  tracked (launched h s) = [length (children s); S (length (children s))].
Proof.
  pose proof (launched_session h s) as Hl. unfold session in Hl.
  unfold tracked.
  assert (pythonProcess (launched h s) = Some (length (children s))) as ->
    by congruence.
  assert (nextProcess (launched h s) = Some (S (length (children s)))) as ->
    by congruence.
  reflexivity.
Qed.

Lemma tracked_ext (s s' : app) :
  pythonProcess s' = pythonProcess s → nextProcess s' = nextProcess s →
  tracked s' = tracked s.
Proof. unfold tracked. intros -> ->. reflexivity. Qed.

End StartupFailureFacts.

(** ** Events: what no handler does *)

Section EventFacts.
Import Probe.

Lemma terminate_length (proc : option nat) (cs : list child) :
  length (terminate proc cs) = length cs.
Proof. destruct proc; [apply length_alter | reflexivity]. Qed.

Lemma cleanup_children_length (s : app) :
  length (children (cleanup s)) = length (children s).
Proof.
  pose proof (cleanup_session s) as Hs. unfold session in Hs.
  assert (children (cleanup s) =
          terminate (nextProcess s) (terminate (pythonProcess s) (children s)))
    as -> by congruence.
  rewrite !terminate_length. reflexivity.
Qed.

Lemma only_sigterm_cleanup (s : app) :
  Forall (λ x, x.2 = SIGTERM) (signalled (cleanup_effects s)).
Proof.
  rewrite cleanup_signalled. apply Forall_forall. intros x Hx.
  apply list_elem_of_In, in_map_iff in Hx. destruct Hx as (pid & <- & _).
  reflexivity.
Qed.

Lemma cleanup_extends (s : app) :
  trace (cleanup s) = trace s ++ cleanup_effects s ∧
  spawned (cleanup_effects s) = [] ∧
  Forall (λ x, x.2 = SIGTERM) (signalled (cleanup_effects s)) ∧
  length (children (cleanup s)) = length (children s).
Proof.
  repeat split; [apply cleanup_trace | apply spawned_cleanup
                | apply only_sigterm_cleanup | apply cleanup_children_length].
Qed.

Lemma cleanup_then_quit_extends (s s0 : app) (before : list effect) :
  trace s0 = trace s ++ before →
  children s0 = children s →
  spawned before = [] → signalled before = [] →
  trace (app_quit (cleanup s0)) =
    trace s ++ (before ++ cleanup_effects s0 ++ [AppQuit]) ∧
  spawned (before ++ cleanup_effects s0 ++ [AppQuit]) = [] ∧
  Forall (λ x, x.2 = SIGTERM)
         (signalled (before ++ cleanup_effects s0 ++ [AppQuit])) ∧
  length (children (app_quit (cleanup s0))) = length (children s).
Proof.
  intros Htr Hch Hsp Hsg.
  change (trace (app_quit ?x)) with (trace x ++ [AppQuit]).
  change (children (app_quit ?x)) with (children x).
  rewrite cleanup_trace, cleanup_children_length, Htr, Hch.
  rewrite !spawned_app, !signalled_app, spawned_cleanup, Hsp, Hsg, <- !app_assoc.
  cbn [List.app]. rewrite app_nil_r.
  repeat split. apply only_sigterm_cleanup.
Qed.

(** What one handler adds to the trace: no spawn, no signal other than
    [SIGTERM]; and it neither adds nor removes a process. *)
Lemma handle_extends (h : host) (ev : event) (s : app) :
  ∃ es,
    trace (handle h ev s) = trace s ++ es ∧
    spawned es = [] ∧
    Forall (λ x, x.2 = SIGTERM) (signalled es) ∧
    length (children (handle h ev s)) = length (children s).
Proof.
  destruct ev as [id| | | |pid code sig|pid| |]; cbn [handle].
  - exists []. unfold on_closed.
    destruct (bool_decide _); cbn; rewrite app_nil_r; repeat split; constructor.
  - unfold on_window_all_closed.
    destruct (host_platform h).
    + exists (cleanup_effects s). apply cleanup_extends.
    + exists ([] ++ cleanup_effects s ++ [AppQuit]).
      apply (cleanup_then_quit_extends s s []);
        [symmetry; apply app_nil_r | reflexivity..].
    + exists ([] ++ cleanup_effects s ++ [AppQuit]).
      apply (cleanup_then_quit_extends s s []);
        [symmetry; apply app_nil_r | reflexivity..].
  - exists (cleanup_effects s). apply cleanup_extends.
  - unfold on_activate. case_bool_decide.
    + exists [NewWindow MainWindow (next_window s)]. cbn. repeat split. constructor.
    + exists []. rewrite app_nil_r. repeat split. constructor.
  - destruct (children s !! pid) as [c|].
    + exists [LogExit (ch_service c) code sig].
      destruct (ch_service c); cbn; repeat split;
        try constructor; apply length_alter.
    + exists []. rewrite app_nil_r. repeat split. constructor.
  - destruct (children s !! pid) as [c|].
    + eexists [_]. cbn. repeat split. constructor.
    + exists []. rewrite app_nil_r. repeat split. constructor.
  - eexists.
    apply (cleanup_then_quit_extends s
             (emit (LogError "Uncaught exception:") s)
             [LogError "Uncaught exception:"]); reflexivity.
  - eexists [_]. cbn. repeat split. constructor.
Qed.

Lemma handle_all_extends (h : host) (evs : list event) :
  ∀ s, ∃ es,
    trace (handle_all h evs s) = trace s ++ es ∧
    spawned es = [] ∧
    Forall (λ x, x.2 = SIGTERM) (signalled es) ∧
    length (children (handle_all h evs s)) = length (children s).
Proof.
  induction evs as [|ev evs IH]; intros s.
  - exists []. cbn. rewrite app_nil_r. repeat split. constructor.
  - destruct (handle_extends h ev s) as (es1 & Ht1 & Hs1 & Hk1 & Hl1).
    destruct (IH (handle h ev s)) as (es2 & Ht2 & Hs2 & Hk2 & Hl2).
    exists (es1 ++ es2).
    change (handle_all h (ev :: evs) s) with (handle_all h evs (handle h ev s)).
    rewrite Ht2, Ht1, <- app_assoc, spawned_app, signalled_app, Hs1, Hs2.
    repeat split; [apply Forall_app; split; assumption | congruence].
Qed.

Lemma handle_all_cons (h : host) (ev : event) (evs : list event) (s : app) :
  handle_all h (ev :: evs) s = handle_all h evs (handle h ev s).
Proof. reflexivity. Qed.





(** The effects of a sequence of handlers. *)
Lemma handle_all_trace (h : host) (evs : list event) (s : app) :
  trace (handle_all h evs s) = trace s ++ new_effects s (handle_all h evs s).
Proof.
  destruct (handle_all_extends h evs s) as (es & Ht & _).
  rewrite (new_effects_app _ _ _ Ht). exact Ht.
Qed.

Lemma handle_all_spawns_nothing (h : host) (evs : list event) (s : app) :
  spawned (new_effects s (handle_all h evs s)) = [].
Proof.
  destruct (handle_all_extends h evs s) as (es & Ht & Hs & _).
  rewrite (new_effects_app _ _ _ Ht). exact Hs.
Qed.


(** A handler may set one of the two variables to [null]; none stores a
    handle, and none moves the clock. *)
Lemma handle_refs (h : host) (ev : event) (s : app) :
  (pythonProcess (handle h ev s) = pythonProcess s ∨
   pythonProcess (handle h ev s) = None) ∧
  (nextProcess (handle h ev s) = nextProcess s ∨
   nextProcess (handle h ev s) = None) ∧
  clock (handle h ev s) = clock s.
Proof.
  pose proof (cleanup_session s) as Hc. unfold session in Hc.
  pose proof (cleanup_session (emit (LogError "Uncaught exception:") s)) as Hu.
  unfold session in Hu.
  destruct ev as [id| | | |pid code sig|pid| |]; cbn [handle].
  - unfold on_closed. destruct (bool_decide _); cbn; auto.
  - unfold on_window_all_closed.
    destruct (host_platform h); unfold app_quit; cbn [pythonProcess nextProcess clock emit emit_all];
      repeat split; try (right; congruence); congruence.
  - repeat split; try (right; congruence); congruence.
  - unfold on_activate. case_bool_decide; cbn; auto.
  - destruct (children s !! pid) as [c|]; [|auto].
    unfold on_exit. destruct (ch_service c); cbn; auto.
  - destruct (children s !! pid) as [c|]; cbn; auto.
  - unfold app_quit. cbn [pythonProcess nextProcess clock emit emit_all].
    repeat split; try (right; congruence). cbn in Hu. congruence.
  - cbn; auto.
Qed.

Lemma handle_all_clock (h : host) (evs : list event) :
  ∀ s, clock (handle_all h evs s) = clock s.
Proof.
  induction evs as [|ev evs IH]; intros s; [reflexivity|].
  rewrite handle_all_cons, IH. apply handle_refs.
Qed.

(** The processes still tracked after a sequence of handlers were tracked
    before it. *)
Lemma handle_all_tracked (h : host) (evs : list event) :
  ∀ s, sublist (tracked (handle_all h evs s)) (tracked s).
Proof.
  induction evs as [|ev evs IH]; intros s; [reflexivity|].
  rewrite handle_all_cons. etransitivity; [apply IH|].
  destruct (handle_refs h ev s) as ([Hp|Hp] & [Hn|Hn] & _);
    unfold tracked; rewrite Hp, Hn;
    apply sublist_app; try reflexivity; apply sublist_nil_l.
Qed.

End EventFacts.

(** ** Startup and the events that arrive meanwhile *)

Section StartupWithFacts.
Import Probe.

Lemma launched_clock (h : host) (s : app) : clock (launched h s) = clock s.
Proof. pose proof (launched_session h s) as Hl. unfold session in Hl. congruence. Qed.

(** The state in which the callback resumes after the backend's check. *)
Lemma backend_awaited_trace (h : host) (bo : list outcome)
    (during : list event) (s : app) :
  trace (backend_awaited h bo during s) =
    trace s ++ startup_prologue h s ++
    map Http (checkServer BACKEND_PORT STARTUP_TIMEOUT (clock s) bo) ++
    new_effects (await_checkServer BACKEND_PORT bo (launched h s)).2
                (backend_awaited h bo during s).
Proof.
  unfold backend_awaited. rewrite handle_all_trace at 1.
  destruct (awaited_backend h bo s) as [-> _].
  rewrite <- !app_assoc. reflexivity.
Qed.

Lemma backend_awaited_clock (h : host) (bo : list outcome)
    (during : list event) (s : app) (r : settlement) (T : Z) :
  settled (checkServer BACKEND_PORT STARTUP_TIMEOUT (clock s) bo) = Some (r, T) →
  clock (backend_awaited h bo during s) = T.
Proof.
  intros Hs. unfold backend_awaited. rewrite handle_all_clock.
  apply (await_clock _ _ _ r). rewrite launched_clock. exact Hs.
Qed.

Lemma backend_awaited_tracked (h : host) (bo : list outcome)
    (during : list event) (s : app) :
  sublist (tracked (backend_awaited h bo during s))
          [length (children s); S (length (children s))].
Proof.
  unfold backend_awaited. etransitivity; [apply handle_all_tracked|].
  destruct (await_keeps BACKEND_PORT bo (launched h s)) as (_ & Hp & Hn & _).
  rewrite (tracked_ext _ _ Hp Hn), launched_tracked. reflexivity.
Qed.

(** The state in which it resumes after the frontend's check. *)
Lemma frontend_awaited_trace (h : host) (fo : list outcome)
    (during : list event) (s : app) :
  trace (frontend_awaited h fo during s) =
    trace s ++
    [Log "Backend is ready!"; Log "Waiting for frontend to be ready..."] ++
    map Http (checkServer FRONTEND_PORT STARTUP_TIMEOUT (clock s) fo) ++
    new_effects (await_checkServer FRONTEND_PORT fo
                   (emit (Log "Waiting for frontend to be ready...")
                      (emit (Log "Backend is ready!") s))).2
                (frontend_awaited h fo during s).
Proof.
  unfold frontend_awaited. rewrite handle_all_trace at 1.
  rewrite await_trace. cbn [trace clock emit emit_all].
  rewrite <- !app_assoc. reflexivity.
Qed.

(** The callback, by the settlements of its two checks. *)
Lemma startup_with_cases (h : host) (bo fo : list outcome)
    (during_backend during_frontend : list event) (s : app) :
  let s1 := backend_awaited h bo during_backend s in
  let s2 := frontend_awaited h fo during_frontend s1 in
  startup_with h bo during_backend fo during_frontend s =
    match settled (checkServer BACKEND_PORT STARTUP_TIMEOUT (clock s) bo) with
    | None => (Returned Suspended, s1)
    | Some (Rejected e, _) => startup_catch h (next_window s) e s1
    | Some (Resolved _, T) =>
        match settled (checkServer FRONTEND_PORT STARTUP_TIMEOUT T fo) with
        | None => (Returned Suspended, s2)
        | Some (Rejected e, _) => startup_catch h (next_window s) e s2
        | Some (Resolved _, _) => startup_finish h (next_window s) s2
        end
    end.
Proof.
  cbn zeta.
  pose proof (backend_awaited_clock h bo during_backend s) as Hclk.
  unfold frontend_awaited, backend_awaited in *.
  change (startup_with h bo during_backend fo during_frontend s) with
    (let '(r, s1) := await_checkServer BACKEND_PORT bo (launched h s) in
     let s1 := handle_all h during_backend s1 in
     match r with
     | None => (Returned Suspended, s1)
     | Some (Rejected e) => startup_catch h (next_window s) e s1
     | Some (Resolved _) =>
         let '(r, s2) :=
           await_checkServer FRONTEND_PORT fo
             (emit (Log "Waiting for frontend to be ready...")
                (emit (Log "Backend is ready!") s1)) in
         let s2 := handle_all h during_frontend s2 in
         match r with
         | None => (Returned Suspended, s2)
         | Some (Rejected e) => startup_catch h (next_window s) e s2
         | Some (Resolved _) => startup_finish h (next_window s) s2
         end
     end).
  pose proof (await_result BACKEND_PORT bo (launched h s)) as Hres.
  rewrite launched_clock in Hres.
  destruct (await_checkServer BACKEND_PORT bo (launched h s)) as [r sA].
  cbn [fst snd] in *.
  destruct (settled (checkServer BACKEND_PORT STARTUP_TIMEOUT (clock s) bo))
    as [[[v|e] T]|]; cbn in Hres; subst r; cbn zeta; try reflexivity.
  set (s1 := handle_all h during_backend sA) in *.
  set (sB := emit (Log "Waiting for frontend to be ready...")
               (emit (Log "Backend is ready!") s1)).
  pose proof (await_result FRONTEND_PORT fo sB) as Hres.
  assert (clock sB = T) as Hck by (apply (Hclk _ _ eq_refl)).
  rewrite Hck in Hres.
  destruct (await_checkServer FRONTEND_PORT fo sB) as [r sC].
  cbn [fst snd] in *.
  destruct (settled (checkServer FRONTEND_PORT STARTUP_TIMEOUT T fo))
    as [[[v'|e'] T']|]; cbn in Hres; subst r; reflexivity.
Qed.

(** Without events the loading window is still open where the callback
    closes it. *)
Lemma launched_open (h : host) (s : app) :
  is_open (next_window s) (launched h s) = true.
Proof.
  pose proof (launched_session h s) as Hl. unfold session in Hl.
  unfold is_open. apply bool_decide_eq_true_2.
  assert (windows (launched h s) = windows s ++ [(next_window s, LoadingWindow)])
    as -> by congruence.
  rewrite fmap_app. apply elem_of_app. right. cbn. apply list_elem_of_here.
Qed.

Lemma is_open_ext (id : nat) (s s' : app) :
  windows s' = windows s → is_open id s' = is_open id s.
Proof. unfold is_open. intros ->. reflexivity. Qed.

Lemma backend_awaited_quiet (h : host) (bo : list outcome) (s : app) :
  let s1 := backend_awaited h bo [] s in
  new_effects (await_checkServer BACKEND_PORT bo (launched h s)).2 s1 = [] ∧
  is_open (next_window s) s1 = true ∧
  tracked s1 = [length (children s); S (length (children s))].
Proof.
  cbn zeta. unfold backend_awaited. cbn [handle_all foldl].
  destruct (await_keeps BACKEND_PORT bo (launched h s))
    as (_ & Hp & Hn & Hw & _).
  split; [|split].
  - apply new_effects_app. rewrite app_nil_r. reflexivity.
  - rewrite (is_open_ext _ _ _ Hw). apply launched_open.
  - rewrite (tracked_ext _ _ Hp Hn). apply launched_tracked.
Qed.

(** The [catch] block. *)
Lemma startup_catch_trace (h : host) (loading : nat) (e : error) (s : app) :
  trace (startup_catch h loading e s).2 =
    trace s ++
    (if is_open loading s
     then LogFailure e :: CloseWindow loading :: cleanup_effects s ++ [AppQuit]
     else [LogFailure e; LogError "Unhandled rejection at:"]).
Proof.
  unfold startup_catch. destruct (is_open loading s); cbn [snd].
  - apply startup_failed_trace.
  - cbn. rewrite <- app_assoc. reflexivity.
Qed.

Lemma startup_catch_result (h : host) (loading : nat) (e : error) (s : app) :
  (startup_catch h loading e s).1 =
    if is_open loading s then Returned (Failed e) else Threw (Some e).
Proof. unfold startup_catch. destruct (is_open loading s); reflexivity. Qed.

(** The end of the [try] block. *)
Lemma startup_finish_trace (h : host) (loading : nat) (s : app) :
  trace (startup_finish h loading s).2 =
    trace s ++
    (if is_open loading s
     then [Log "Frontend is ready!"; CloseWindow loading;
           NewWindow MainWindow (next_window s);
           LoadURL (next_window s) FRONTEND_PORT]
     else [Log "Frontend is ready!"; LogError "Failed to start services:";
           LogError "Unhandled rejection at:"]).
Proof.
  unfold startup_finish. cbn zeta.
  change (is_open loading (emit (Log "Frontend is ready!") s))
    with (is_open loading s).
  destruct (is_open loading s); cbn; rewrite <- !app_assoc; reflexivity.
Qed.

Lemma startup_finish_result (h : host) (loading : nat) (s : app) :
  (startup_finish h loading s).1 =
    if is_open loading s then Returned (Started (next_window s)) else Threw None.
Proof.
  unfold startup_finish. cbn zeta.
  change (is_open loading (emit (Log "Frontend is ready!") s))
    with (is_open loading s).
  destruct (is_open loading s); reflexivity.
Qed.

End StartupWithFacts.

(** ** Startup: the claims *)

Section StartupClaims.
Import Probe.

(** C1 (as stated, refuted): the backend refuses every connection, so its
    check rejects after a minute and startup fails; yet the frontend was
    spawned, before the first health request was even issued, and is then
    sent [SIGTERM] by the failure path. *)
Lemma frontend_is_spawned_though_backend_never_ready :
  let h := Host Linux false (λ _, false) in
  let r := startup_with h (repeat (ConnError 1) 121) [] [] [] initial in
  r.1 = Returned (Failed (DidNotStart BACKEND_PORT STARTUP_TIMEOUT)) ∧
  spawned_services (trace r.2) = [Backend; Frontend] ∧
  take 8 (acts (trace r.2)) =
    [NewWindow LoadingWindow 0;
     Spawn Backend 0 (backend_command h);
     Spawn Frontend 1 (frontend_command h);
     Http (Request 0 BACKEND_PORT "/routes/health");
     Http (SetTimeout 1 POLL_DELAY);
     Http (Request 501 BACKEND_PORT "/routes/health");
     Http (SetTimeout 502 POLL_DELAY);
     Http (Request 1002 BACKEND_PORT "/routes/health")] ∧
  signalled (trace r.2) = [(0%nat, SIGTERM); (1%nat, SIGTERM)].
Proof. vm_compute. repeat split. Qed.

(** C1 (amended): the startup callback spawns the backend and then the
    frontend before it issues any readiness request, whatever the
    network does and whatever events arrive while it waits; neither the
    callback nor a handler spawns anything afterwards.  What waits for
    the backend's check is the rest of the callback: when the check is
    pending the callback is suspended; when it resolves, the frontend's
    check starts at that time; when it rejects, no request is sent to the
    frontend and the [catch] block runs: it calls [loadingWindow.close()],
    then [cleanup], which sends [SIGTERM] to those of the two services
    whose variable no handler has cleared meanwhile, then [app.quit()];
    when the loading window was closed during the wait the first of
    these calls throws and the other two are not reached.  When no event
    arrives during the wait the loading window is open and both services
    are tracked. *)
Theorem startup_spawns_both_then_waits
    (h : host) (bo fo : list outcome)
    (during_backend during_frontend : list event) (s : app) :
  let run := checkServer BACKEND_PORT STARTUP_TIMEOUT (clock s) bo in
  let r := startup_with h bo during_backend fo during_frontend s in
  let s1 := backend_awaited h bo during_backend s in
  ∃ during rest,
    new_effects s r.2 =
      startup_prologue h s ++ map Http run ++ during ++ rest ∧
    trace s1 = trace s ++ startup_prologue h s ++ map Http run ++ during ∧
    spawned_services (startup_prologue h s) = [Backend; Frontend] ∧
    spawned during = [] ∧ spawned rest = [] ∧
    sublist (tracked s1) [length (children s); S (length (children s))] ∧
    match during_backend with
    | [] =>
        during = [] ∧ is_open (next_window s) s1 = true ∧
        tracked s1 = [length (children s); S (length (children s))]
    | _ :: _ => True
    end ∧
    match settled run with
    | None => r.1 = Returned Suspended ∧ rest = []
    | Some (Rejected e, _) =>
        if is_open (next_window s) s1 then
          r.1 = Returned (Failed e) ∧
          rest = LogFailure e :: CloseWindow (next_window s) ::
                 cleanup_effects s1 ++ [AppQuit] ∧
          signalled rest = map (λ pid, (pid, SIGTERM)) (tracked s1)
        else
          r.1 = Threw (Some e) ∧
          rest = [LogFailure e; LogError "Unhandled rejection at:"]
    | Some (Resolved _, T) =>
        ∃ rest',
          rest = [Log "Backend is ready!";
                  Log "Waiting for frontend to be ready..."] ++
                 map Http (checkServer FRONTEND_PORT STARTUP_TIMEOUT T fo) ++
                 rest'
    end.
Proof.
  cbn zeta. rewrite startup_with_cases. cbn zeta.
  pose proof (backend_awaited_trace h bo during_backend s) as Htr.
  pose proof (backend_awaited_clock h bo during_backend s) as Hclk.
  pose proof (backend_awaited_tracked h bo during_backend s) as Htk.
  pose proof (backend_awaited_quiet h bo s) as Hq. cbn zeta in Hq.
  assert (Hsp : spawned
            (new_effects (await_checkServer BACKEND_PORT bo (launched h s)).2
               (backend_awaited h bo during_backend s)) = [])
    by apply handle_all_spawns_nothing.
  set (s1 := backend_awaited h bo during_backend s) in *.
  set (during := new_effects _ s1) in *.
  assert (Hquiet : match during_backend with
                   | [] =>
                       during = [] ∧ is_open (next_window s) s1 = true ∧
                       tracked s1 = [length (children s); S (length (children s))]
                   | _ :: _ => True
                   end).
  { subst during s1. destruct during_backend; [exact Hq | exact I]. }
  clearbody during s1. clear Hq.
  exists during.
  destruct (settled (checkServer BACKEND_PORT STARTUP_TIMEOUT (clock s) bo))
    as [[[v|e] T]|] eqn:Hs.
  - specialize (Hclk _ _ eq_refl).
    pose proof (frontend_awaited_trace h fo during_frontend s1) as Htf.
    rewrite Hclk in Htf.
    assert (Hsf : spawned
              (new_effects
                 (await_checkServer FRONTEND_PORT fo
                    (emit (Log "Waiting for frontend to be ready...")
                       (emit (Log "Backend is ready!") s1))).2
                 (frontend_awaited h fo during_frontend s1)) = [])
      by apply handle_all_spawns_nothing.
    set (s2 := frontend_awaited h fo during_frontend s1) in *.
    set (during' := new_effects _ s2) in *. clearbody during' s2.
    assert (Hgen : ∀ (x : startup_end * app) (tail : list effect),
              trace x.2 = trace s2 ++ tail → spawned tail = [] →
              ∃ rest,
                new_effects s x.2 =
                  startup_prologue h s ++
                  map Http (checkServer BACKEND_PORT STARTUP_TIMEOUT (clock s) bo) ++
                  during ++ rest ∧
                spawned rest = [] ∧
                ∃ rest',
                  rest = [Log "Backend is ready!";
                          Log "Waiting for frontend to be ready..."] ++
                         map Http (checkServer FRONTEND_PORT STARTUP_TIMEOUT T fo) ++
                         rest').
    { intros x tail Hx Ht.
      exists ([Log "Backend is ready!"; Log "Waiting for frontend to be ready..."] ++
              map Http (checkServer FRONTEND_PORT STARTUP_TIMEOUT T fo) ++
              during' ++ tail).
      split; [|split].
      - apply new_effects_app. rewrite Hx, Htf, Htr, <- !app_assoc. reflexivity.
      - rewrite !spawned_app, spawned_http, Hsf, Ht. reflexivity.
      - eexists. reflexivity. }
    assert (Hfin : ∃ tail, trace
              (match settled (checkServer FRONTEND_PORT STARTUP_TIMEOUT T fo) with
               | Some (Resolved _, _) => startup_finish h (next_window s) s2
               | Some (Rejected e, _) => startup_catch h (next_window s) e s2
               | None => (Returned Suspended, s2)
               end).2 = trace s2 ++ tail ∧ spawned tail = []).
    { destruct (settled (checkServer FRONTEND_PORT STARTUP_TIMEOUT T fo))
        as [[[v'|e'] T']|].
      - eexists. split; [apply startup_finish_trace|].
        destruct (is_open _ s2); reflexivity.
      - eexists. split; [apply startup_catch_trace|].
        destruct (is_open _ s2); [|reflexivity].
        change (spawned (cleanup_effects s2 ++ [AppQuit]) = []).
        rewrite spawned_app, spawned_cleanup. reflexivity.
      - exists []. split; [|reflexivity]. cbn [snd]. rewrite app_nil_r.
        reflexivity. }
    destruct Hfin as (tail & Hx & Ht).
    destruct (Hgen _ tail Hx Ht) as (rest & Hn & Hr & Hrest).
    exists rest. repeat split; assumption.
  - pose proof (startup_catch_trace h (next_window s) e s1) as Hc.
    pose proof (startup_catch_result h (next_window s) e s1) as Hres.
    destruct (is_open (next_window s) s1).
    + exists (LogFailure e :: CloseWindow (next_window s) ::
              cleanup_effects s1 ++ [AppQuit]).
      assert (Hsig : signalled (LogFailure e :: CloseWindow (next_window s) ::
                                cleanup_effects s1 ++ [AppQuit]) =
                     map (λ pid, (pid, SIGTERM)) (tracked s1)).
      { change (signalled (LogFailure e :: CloseWindow (next_window s) :: ?l))
          with (signalled l).
        rewrite signalled_app, cleanup_signalled, app_nil_r. reflexivity. }
      repeat split; try assumption.
      * apply new_effects_app. rewrite Hc, Htr, <- !app_assoc. reflexivity.
      * change (spawned (cleanup_effects s1 ++ [AppQuit]) = []).
        rewrite spawned_app, spawned_cleanup. reflexivity.
    + exists [LogFailure e; LogError "Unhandled rejection at:"].
      repeat split; try assumption.
      apply new_effects_app. rewrite Hc, Htr, <- !app_assoc. reflexivity.
  - exists []. cbn [fst snd]. repeat split; try assumption.
    apply new_effects_app. rewrite Htr, app_nil_r. reflexivity.
Qed.

End StartupClaims.

(** ** Teardown *)

Section TeardownClaims.
Import Probe.

Lemma started_both (h : host) (s : app) :
  let s1 := startFrontend h (startBackend h s) in
  trace s1 = trace s ++
    [Log "Starting Python backend...";
     Spawn Backend (length (children s)) (backend_command h);
     Log "Starting Next.js frontend...";
     Spawn Frontend (S (length (children s))) (frontend_command h)] ∧
  tracked s1 = [length (children s); S (length (children s))].
Proof.
  destruct s as [mw pp np ws nw cs ck tr]. cbn.
  rewrite length_app, Nat.add_1_r, <- !app_assoc. split; reflexivity.
Qed.

(** C2 (as stated, refuted): both services are started, backend first,
    and [cleanup] runs; the backend is signalled first and the frontend
    second, which is the start order and not its reverse. *)
Lemma cleanup_does_not_reverse_start_order :
  let h := Host Linux false (λ _, false) in
  let s := startFrontend h (startBackend h initial) in
  spawned (trace s) = [0; 1]%nat ∧
  map fst (signalled (new_effects s (cleanup s))) = [0; 1]%nat ∧
  map fst (signalled (new_effects s (cleanup s))) ≠ rev (spawned (trace s)).
Proof. vm_compute. repeat split. discriminate. Qed.

(** C2 (amended): [cleanup] sends [SIGTERM] to the processes it still
    tracks in a fixed order, the backend before the frontend; after the
    two services were started, backend first, that is the order in which
    they were started. *)
Theorem cleanup_signals_backend_first (h : host) (s : app) :
  signalled (new_effects s (cleanup s)) =
    map (λ pid, (pid, SIGTERM))
        (option_list (pythonProcess s) ++ option_list (nextProcess s)) ∧
  let s1 := startFrontend h (startBackend h s) in
  map fst (signalled (new_effects s1 (cleanup s1))) = spawned (new_effects s s1).
Proof.
  split.
  - rewrite (new_effects_app _ _ _ (cleanup_trace s)). apply cleanup_signalled.
  - cbn zeta. destruct (started_both h s) as [Htr Htk]. cbn zeta in Htr, Htk.
    rewrite (new_effects_app _ _ _ (cleanup_trace _)), cleanup_signalled, Htk.
    rewrite (new_effects_app _ _ _ Htr). reflexivity.
Qed.

(** C5 (as stated, refuted): the backend ignores [SIGTERM]; after a
    successful startup the app quits and [cleanup] runs.  The backend
    got one [SIGTERM] and nothing else, the clock has not moved, the
    program holds no handle to it any more, and it is still running. *)
Lemma process_ignoring_sigterm_survives_cleanup :
  let h := Host Linux false (λ svc, bool_decide (svc = Backend)) in
  let s := (startup h [Response 200 5] [Response 200 5] initial).2 in
  let s' := handle h OnQuit s in
  alive s 0 = true ∧
  signalled (new_effects s s') = [(0%nat, SIGTERM); (1%nat, SIGTERM)] ∧
  received s' 0 = [SIGTERM] ∧
  clock s' = clock s ∧
  tracked s' = [] ∧
  alive s' 0 = true ∧
  alive s' 1 = false.
Proof. vm_compute. repeat split. Qed.

Lemma elem_of_tracked (s : app) (pid : nat) :
  pid ∈ tracked s ↔ pythonProcess s = Some pid ∨ nextProcess s = Some pid.
Proof.
  unfold tracked. rewrite elem_of_app.
  destruct (pythonProcess s) as [p|], (nextProcess s) as [q|]; cbn;
    rewrite ?list_elem_of_singleton, ?elem_of_nil;
    split; intros [H|H]; try discriminate; try contradiction;
    first [left; congruence | right; congruence].
Qed.

Lemma cleanup_alive (s : app) (pid : nat) :
  alive (cleanup s) pid =
    if bool_decide (pid ∈ tracked s) then alive s pid && ignoring s pid
    else alive s pid.
Proof.
  pose proof (cleanup_session s) as Hs. unfold session in Hs.
  assert (Hc : children (cleanup s) =
            terminate (nextProcess s) (terminate (pythonProcess s) (children s)))
    by congruence.
  unfold alive, ignoring. rewrite Hc, !terminate_lookup.
  rewrite (bool_decide_ext _ _ (elem_of_tracked s pid)).
  destruct (children s !! pid) as [c|];
    repeat case_bool_decide; cbn;
    rewrite ?deliver_twice_alive, ?deliver_alive; try reflexivity; tauto.
Qed.

(** C5 (amended): [cleanup] sends each process it tracks one [SIGTERM]
    and nothing else, forgets the handle at once and does not wait (the
    clock does not move); there is no forceful kill.  A tracked process
    is running afterwards exactly when it was running and ignores
    [SIGTERM]; an untracked process is left as it was.  The launcher
    script likewise sends its children [SIGTERM] only and exits: once
    when it ends by itself, twice when [SIGINT] or [SIGTERM] set off its
    trap, whose [exit 0] runs the [EXIT] trap in turn. *)
Theorem cleanup_sends_sigterm_and_forgets
    (s : app) (pid : nat) (env : StartScript.env) (signal : option nat) :
  StartScript.signals (StartScript.run_with env signal) =
    (if StartScript.cd_project_ok env then
       match signal with
       | Some _ => [SIGTERM; SIGTERM]
       | None => [SIGTERM]
       end
     else []) ∧
  StartScript.run_with env None = StartScript.run env ∧
  signalled (new_effects s (cleanup s)) =
    map (λ p, (p, SIGTERM)) (tracked s) ∧
  clock (cleanup s) = clock s ∧
  tracked (cleanup s) = [] ∧
  alive (cleanup s) pid =
    if bool_decide (pid ∈ tracked s) then alive s pid && ignoring s pid
    else alive s pid.
Proof.
  pose proof (cleanup_session s) as Hs. unfold session in Hs.
  split; [apply run_with_signals|].
  split; [apply run_with_none|].
  repeat split.
  - rewrite (new_effects_app _ _ _ (cleanup_trace s)). apply cleanup_signalled.
  - congruence.
  - unfold tracked. destruct (cleanup_clears s) as [-> ->]. reflexivity.
  - apply cleanup_alive.
Qed.

Lemma signalled_repeat_log (line : string) (n : nat) :
  signalled (repeat (Log line) n) = [].
Proof. induction n as [|n IH]; [reflexivity | exact IH]. Qed.

(** Repeated calls of [cleanup]: the first one does the work, each later
    one adds a console line. *)
Lemma cleanup_iterated (n : nat) (s : app) :
  session (Nat.iter (S n) cleanup s) = session (cleanup s) ∧
  trace (Nat.iter (S n) cleanup s) =
    trace (cleanup s) ++ repeat (Log "Cleaning up...") n.
Proof.
  induction n as [|n [IHs IHt]].
  - cbn. rewrite app_nil_r. split; reflexivity.
  - change (Nat.iter (S (S n)) cleanup s) with (cleanup (Nat.iter (S n) cleanup s)).
    destruct (cleanup_clears s) as [Hp Hn].
    assert (pythonProcess (Nat.iter (S n) cleanup s) = None ∧
            nextProcess (Nat.iter (S n) cleanup s) = None) as [Hp' Hn']
      by (unfold session in IHs; split; congruence).
    rewrite (cleanup_untracked _ Hp' Hn').
    split.
    + rewrite <- IHs. reflexivity.
    + cbn [emit emit_all trace]. rewrite IHt, <- app_assoc.
      f_equal. symmetry. apply (repeat_cons n (Log "Cleaning up...")).
Qed.

(** C8: calling [cleanup] N > 1 times sends exactly the signals of one
    call, one [SIGTERM] per process tracked at the first call; the
    variables, the windows, the processes and the clock are as one call
    leaves them; each of the N - 1 later calls only prints the line
    ['Cleaning up...']. *)
Theorem cleanup_idempotent (n : nat) (s : app) :
  (1 < n)%nat →
  signalled (new_effects s (Nat.iter n cleanup s)) =
    map (λ pid, (pid, SIGTERM)) (tracked s) ∧
  session (Nat.iter n cleanup s) = session (cleanup s) ∧
  new_effects (cleanup s) (Nat.iter n cleanup s) =
    repeat (Log "Cleaning up...") (n - 1) ∧
  signalled (new_effects (cleanup s) (Nat.iter n cleanup s)) = [].
Proof.
  intros Hn. destruct n as [|n]; [lia|].
  destruct (cleanup_iterated n s) as [Hs Ht].
  replace (S n - 1)%nat with n by lia.
  assert (Hnew : new_effects (cleanup s) (Nat.iter (S n) cleanup s) =
                 repeat (Log "Cleaning up...") n)
    by (apply new_effects_app, Ht).
  repeat split.
  - rewrite (new_effects_app s _ (cleanup_effects s ++ repeat (Log "Cleaning up...") n)).
    + rewrite signalled_app, signalled_repeat_log, app_nil_r.
      apply cleanup_signalled.
    + rewrite Ht, cleanup_trace, <- app_assoc. reflexivity.
  - exact Hs.
  - exact Hnew.
  - rewrite Hnew. apply signalled_repeat_log.
Qed.

Lemma cleanup_idempotent_witness :
  let h := Host Linux false (λ _, false) in
  let s := (startup h [Response 200 5] [Response 200 5] initial).2 in
  signalled (new_effects s (Nat.iter 3 cleanup s)) =
    [(0%nat, SIGTERM); (1%nat, SIGTERM)] ∧
  session (Nat.iter 3 cleanup s) = session (cleanup s) ∧
  new_effects (cleanup s) (Nat.iter 3 cleanup s) =
    [Log "Cleaning up..."; Log "Cleaning up..."] ∧
  signalled (new_effects (cleanup s) (Nat.iter 3 cleanup s)) = [].
Proof.
  exact (cleanup_idempotent 3
           (startup (Host Linux false (λ _, false))
              [Response 200 5] [Response 200 5] initial).2
           ltac:(lia)).
Defined.

End TeardownClaims.

(** ** Events *)

Section EventClaims.
Import Probe.

(** C4 (as stated, refuted): both services are up and the main window is
    shown; the backend exits on its own with code 1.  The handler prints
    one line and clears [pythonProcess]: no signal is sent, the frontend
    is still tracked and running, the window stays and the app does not
    quit. *)
Lemma backend_exit_tears_nothing_down :
  let h := Host Linux false (λ _, false) in
  let s := (startup h [Response 200 5] [Response 200 5] initial).2 in
  let s' := handle h (ChildExit 0 (Some 1) None) s in
  alive s 0 = true ∧
  new_effects s s' = [LogExit Backend (Some 1) None] ∧
  signalled (new_effects s s') = [] ∧
  tracked s' = [1%nat] ∧
  alive s' 1 = true ∧
  windows s' = [(1%nat, MainWindow)].
Proof. vm_compute. repeat split. Qed.

(** C4 (amended): when a service exits on its own, its ['exit'] handler
    prints the exit code and signal and sets the variable of that
    service to [null]; it does nothing else: the other service is
    neither signalled nor forgotten, the windows stay, and the app does
    not quit. *)
Theorem child_exit_only_clears_its_variable
    (h : host) (s : app) (pid : nat) (c : child)
    (code : option Z) (sig : option signal) :
  children s !! pid = Some c →
  let s' := handle h (ChildExit pid code sig) s in
  new_effects s s' = [LogExit (ch_service c) code sig] ∧
  pythonProcess s' =
    match ch_service c with Backend => None | Frontend => pythonProcess s end ∧
  nextProcess s' =
    match ch_service c with Backend => nextProcess s | Frontend => None end ∧
  mainWindow s' = mainWindow s ∧
  windows s' = windows s ∧
  children s' = alter exited pid (children s).
Proof.
  intros Hc. cbn zeta. unfold handle. rewrite Hc.
  destruct s as [mw pp np ws nw cs ck tr].
  destruct (ch_service c); cbn; repeat split;
    apply drop_app_length.
Qed.

Lemma child_exit_only_clears_its_variable_witness :
  let h := Host Linux false (λ _, false) in
  let s := (startup h [Response 200 5] [Response 200 5] initial).2 in
  let s' := handle h (ChildExit 0 (Some 1) None) s in
  new_effects s s' = [LogExit Backend (Some 1) None] ∧
  pythonProcess s' = None ∧
  nextProcess s' = Some 1%nat ∧
  mainWindow s' = Some 1%nat ∧
  windows s' = [(1%nat, MainWindow)] ∧
  children s' = alter exited 0%nat (children s).
Proof.
  exact (child_exit_only_clears_its_variable
           (Host Linux false (λ _, false))
           (startup (Host Linux false (λ _, false))
              [Response 200 5] [Response 200 5] initial).2
           0%nat (Child Backend false true []) (Some 1) None eq_refl).
Defined.

Lemma no_quit_in_cleanup (s : app) :
  Forall (λ e, is_quit e = false) (cleanup_effects s).
Proof.
  destruct s as [mw [p|] [q|] ws nw cs ck tr]; cbn;
    repeat constructor.
Qed.

(** C10: on macOS, when all windows are closed the handler runs
    [cleanup], which sends [SIGTERM] to both tracked services and
    forgets them, and the app does not quit; a following ['activate']
    creates a new main window and spawns nothing: no service is
    tracked afterwards and the processes are as [cleanup] left them. *)
Theorem darwin_close_then_activate (h : host) (s : app) :
  host_platform h = Darwin →
  windows s = [] →
  let s1 := handle h WindowAllClosed s in
  let s2 := handle h Activate s1 in
  s1 = cleanup s ∧
  signalled (new_effects s s1) = map (λ pid, (pid, SIGTERM)) (tracked s) ∧
  Forall (λ e, is_quit e = false) (new_effects s s1) ∧
  tracked s1 = [] ∧
  new_effects s1 s2 = [NewWindow MainWindow (next_window s)] ∧
  mainWindow s2 = Some (next_window s) ∧
  windows s2 = [(next_window s, MainWindow)] ∧
  tracked s2 = [] ∧
  children s2 = children s1.
Proof.
  intros Hdarwin Hws. cbn zeta.
  assert (H1 : handle h WindowAllClosed s = cleanup s).
  { cbn. unfold on_window_all_closed. rewrite Hdarwin. reflexivity. }
  rewrite H1.
  pose proof (cleanup_session s) as Hs. unfold session in Hs.
  assert (Hw : windows (cleanup s) = []) by congruence.
  assert (Hnw : next_window (cleanup s) = next_window s) by congruence.
  destruct (cleanup_clears s) as [Hp Hn].
  rewrite (new_effects_app _ _ _ (cleanup_trace s)).
  split; [reflexivity|]. split; [apply cleanup_signalled|].
  split; [apply no_quit_in_cleanup|].
  split; [unfold tracked; rewrite Hp, Hn; reflexivity|].
  cbn [handle]. unfold on_activate. rewrite Hw.
  rewrite bool_decide_eq_true_2 by reflexivity.
  destruct (cleanup s) as [mw pp np ws nw cs ck tr]. cbn in *. subst.
  repeat split. apply drop_app_length.
Qed.

Lemma darwin_close_then_activate_witness :
  let h := Host Darwin false (λ _, false) in
  let s := handle h (WindowClosed 1)
             (startup h [Response 200 5] [Response 200 5] initial).2 in
  let s1 := handle h WindowAllClosed s in
  let s2 := handle h Activate s1 in
  s1 = cleanup s ∧
  signalled (new_effects s s1) = [(0%nat, SIGTERM); (1%nat, SIGTERM)] ∧
  Forall (λ e, is_quit e = false) (new_effects s s1) ∧
  tracked s1 = [] ∧
  new_effects s1 s2 = [NewWindow MainWindow 2] ∧
  mainWindow s2 = Some 2%nat ∧
  windows s2 = [(2%nat, MainWindow)] ∧
  tracked s2 = [] ∧
  children s2 = children s1.
Proof.
  exact (darwin_close_then_activate
           (Host Darwin false (λ _, false))
           (handle (Host Darwin false (λ _, false)) (WindowClosed 1)
              (startup (Host Darwin false (λ _, false))
                 [Response 200 5] [Response 200 5] initial).2)
           eq_refl eq_refl).
Defined.

End EventClaims.

(** ** Exit status *)

Section ExitClaims.
Import Probe.




End ExitClaims.

(** * Further properties *)

(** ** The readiness check: how long it runs *)

Section ProbeExtraTheorems.
Import Probe.

Lemma request_times_timely (port timeout now L : Z) (run : list action) :
  Forall (timely port timeout now L) run →
  Forall (λ t, t - now <= timeout + POLL_DELAY) (request_times run).
Proof.
  induction 1 as [|a run Ha _ IH]; [constructor|].
  destruct a; cbn; try exact IH. constructor; [exact Ha | exact IH].
Qed.

(** X2: with a deadline that is not negative, no request of a check, of
    whichever chain of retries, is issued later than [timeout + 500] ms
    after its start, and when every attempt runs its last callback
    within [L] ms the promise, if it settles, settles (by resolving or by
    rejecting) at most [timeout + 500 + L] ms after the start. *)
Theorem check_is_bounded (port timeout now L : Z) (outs : list outcome) :
  0 <= timeout →
  every (λ o, duration o <=? L) outs = true →
  Forall (λ t, t - now <= timeout + POLL_DELAY)
         (request_times (checkServer port timeout now outs)) ∧
  match settled (checkServer port timeout now outs) with
  | Some (_, T) => T - now <= timeout + POLL_DELAY + L
  | None => True
  end.
Proof.
  intros Ht HL.
  assert (Hrun : Forall (timely port timeout now L)
                   (checkServer port timeout now outs)).
  { apply timely_check; [exact HL | unfold POLL_DELAY; lia]. }
  split; [apply (request_times_timely port timeout now L), Hrun|].
  destruct (settled (checkServer port timeout now outs)) as [[r T]|] eqn:Hs;
    [|exact I].
  destruct (settled_in _ _ Hs) as (a & Hin & Ha).
  rewrite Forall_forall in Hrun. specialize (Hrun a Hin).
  destruct a; try discriminate; cbn in Ha, Hrun;
    injection Ha as _ <-; lia.
Qed.

Lemma check_is_bounded_witness :
  Forall (λ t, t - 0 <= 3000 + POLL_DELAY)
         (request_times
            (checkServer BACKEND_PORT 3000 0
               [ConnError 100; SocketTimeout 1 [Response 200 50];
                Response 200 700])) ∧
  match settled (checkServer BACKEND_PORT 3000 0
                   [ConnError 100; SocketTimeout 1 [Response 200 50];
                    Response 200 700]) with
  | Some (_, T) => T - 0 <= 3000 + POLL_DELAY + 2001
  | None => True
  end.
Proof.
  apply (check_is_bounded BACKEND_PORT 3000 0 2001
           [ConnError 100; SocketTimeout 1 [Response 200 50];
            Response 200 700]).
  - lia.
  - reflexivity.
Defined.

End ProbeExtraTheorems.

(** ** Startup: how the callback ends *)

Section StartupEndFacts.
Import Probe.






(** *** Processes that are accounted for *)

Lemma deliver_stopped (c : child) :
  stopped_or_ignoring (deliver SIGTERM c) = true.
Proof.
  unfold stopped_or_ignoring. rewrite deliver_alive, deliver_ignores.
  destruct (ch_alive c), (ch_ignores_term c); reflexivity.
Qed.

Lemma deliver_service (sig : signal) (c : child) :
  ch_service (deliver sig c) = ch_service c.
Proof. unfold deliver. destruct (ch_alive c); reflexivity. Qed.

Lemma accounted_ext (s s' : app) :
  children s' = children s → pythonProcess s' = pythonProcess s →
  nextProcess s' = nextProcess s → accounted s → accounted s'.
Proof. unfold accounted. intros -> -> ->. exact id. Qed.

Lemma accounted_launched (h : host) : accounted (launched h initial).
Proof.
  exists (Child Backend (ignores_term h Backend) true []),
         (Child Frontend (ignores_term h Frontend) true []).
  repeat split; left; reflexivity.
Qed.

(** [cleanup] leaves both variables [null] and every process accounted
    for. *)
Lemma accounted_cleanup (s : app) :
  accounted s →
  accounted (cleanup s) ∧ pythonProcess (cleanup s) = None ∧
  nextProcess (cleanup s) = None.
Proof.
  intros (b & f & Hc & Hb & Hf & Hp & Hn).
  destruct s as [mw pp np ws nw cs ck tr]. cbn in Hc, Hp, Hn. subst cs.
  destruct Hp as [->|[-> Hp]], Hn as [->|[-> Hn]]; cbn;
    (split; [|split; reflexivity]).
  - exists (deliver SIGTERM b), (deliver SIGTERM f).
    rewrite !deliver_service, !deliver_stopped. cbn. auto 10.
  - exists (deliver SIGTERM b), f.
    rewrite !deliver_service, !deliver_stopped. cbn. auto 10.
  - exists b, (deliver SIGTERM f).
    rewrite !deliver_service, !deliver_stopped. cbn. auto 10.
  - exists b, f. cbn. auto 10.
Qed.

Lemma accounted_handle (h : host) (ev : event) (s : app) :
  accounted s → accounted (handle h ev s).
Proof.
  intros Ha.
  destruct ev as [id| | | |pid code sig|pid| |]; cbn [handle].
  - unfold on_closed. destruct (bool_decide _);
      apply (accounted_ext s); try reflexivity; exact Ha.
  - unfold on_window_all_closed.
    destruct (accounted_cleanup s Ha) as [Hc _].
    destruct (host_platform h); try exact Hc;
      apply (accounted_ext (cleanup s)); try reflexivity; exact Hc.
  - apply accounted_cleanup, Ha.
  - unfold on_activate. case_bool_decide; [|exact Ha].
    apply (accounted_ext s); try reflexivity; exact Ha.
  - destruct Ha as (b & f & Hc & Hb & Hf & Hp & Hn).
    destruct s as [mw pp np ws nw cs ck tr]. cbn in Hc, Hp, Hn. subst cs.
    destruct pid as [|[|pid]]; cbn.
    + rewrite Hb. cbn. exists (exited b), f. cbn. auto 10.
    + rewrite Hf. cbn. exists b, (exited f). cbn. auto 10.
    + exists b, f. cbn. auto 10.
  - destruct (children s !! pid) as [c|]; [|exact Ha].
    apply (accounted_ext s); try reflexivity; exact Ha.
  - destruct (accounted_cleanup (emit (LogError "Uncaught exception:") s))
      as [Hc _].
    + apply (accounted_ext s); try reflexivity; exact Ha.
    + apply (accounted_ext (cleanup (emit (LogError "Uncaught exception:") s)));
        try reflexivity; exact Hc.
  - apply (accounted_ext s); try reflexivity; exact Ha.
Qed.

Lemma accounted_handle_all (h : host) (evs : list event) :
  ∀ s, accounted s → accounted (handle_all h evs s).
Proof.
  induction evs as [|ev evs IH]; intros s Ha; [exact Ha|].
  rewrite handle_all_cons. apply IH, accounted_handle, Ha.
Qed.

Lemma accounted_await (port : Z) (outs : list outcome) (s : app) :
  accounted s → accounted (await_checkServer port outs s).2.
Proof.
  destruct (await_keeps port outs s) as (_ & Hp & Hn & _ & _ & Hc).
  apply accounted_ext; assumption.
Qed.

Lemma accounted_backend_awaited (h : host) (bo : list outcome)
    (during : list event) :
  accounted (backend_awaited h bo during initial).
Proof.
  unfold backend_awaited.
  apply accounted_handle_all, accounted_await, accounted_launched.
Qed.

Lemma accounted_frontend_awaited (h : host) (fo : list outcome)
    (during : list event) (s : app) :
  accounted s → accounted (frontend_awaited h fo during s).
Proof.
  intros Ha. unfold frontend_awaited.
  apply accounted_handle_all, accounted_await.
  apply (accounted_ext s); try reflexivity; exact Ha.
Qed.

(** Once both variables are [null], a process that is accounted for runs
    only if it ignores [SIGTERM]. *)
Lemma accounted_untracked (s : app) (pid : nat) :
  accounted s → pythonProcess s = None → nextProcess s = None →
  alive s pid && negb (ignoring s pid) = false.
Proof.
  intros (b & f & Hc & _ & _ & Hp & Hn) Hpn Hnn.
  destruct Hp as [Hp|[_ Hp]]; [congruence|].
  destruct Hn as [Hn|[_ Hn]]; [congruence|].
  unfold alive, ignoring. rewrite Hc.
  unfold stopped_or_ignoring in Hp, Hn.
  destruct pid as [|[|pid]]; cbn; [| |reflexivity].
  - destruct (ch_alive b), (ch_ignores_term b); try reflexivity; discriminate.
  - destruct (ch_alive f), (ch_ignores_term f); try reflexivity; discriminate.
Qed.

(** The [catch] block, when the loading window is still open. *)
Lemma accounted_failed (loading : nat) (e : error) (s : app) (pid : nat) :
  accounted s →
  let s' := startup_failed loading e s in
  tracked s' = [] ∧ last (trace s') = Some AppQuit ∧
  alive s' pid && negb (ignoring s' pid) = false.
Proof.
  intros Ha. cbn zeta.
  destruct (startup_failed_state loading e s) as (Htk & _ & _ & Hl).
  split; [exact Htk|]. split; [exact Hl|].
  set (s0 := close_window loading (emit (LogFailure e) s)).
  assert (Ha0 : accounted s0)
    by (apply (accounted_ext s); try reflexivity; exact Ha).
  destruct (accounted_cleanup s0 Ha0) as (Hc & Hp & Hn).
  change (alive (startup_failed loading e s) pid)
    with (alive (cleanup s0) pid).
  change (ignoring (startup_failed loading e s) pid)
    with (ignoring (cleanup s0) pid).
  apply accounted_untracked; assumption.
Qed.

End StartupEndFacts.

Section StartupExtraTheorems.
Import Probe.


(** X5: a failed startup, from the launch of the app: whichever check
    rejects and whatever events arrived while the callback waited (a
    service that exits has its variable cleared and is sent nothing by
    [cleanup]), when the [catch] block has run to its end no handle is
    kept, the last action is [app.quit()], and a service process is
    still running only if it ignores [SIGTERM]. *)
Theorem failed_startup_leaves_nothing_tracked
    (h : host) (bo fo : list outcome)
    (during_backend during_frontend : list event) (e : error) (pid : nat) :
  (startup_with h bo during_backend fo during_frontend initial).1 =
    Returned (Failed e) →
  let s' := (startup_with h bo during_backend fo during_frontend initial).2 in
  tracked s' = [] ∧
  last (trace s') = Some AppQuit ∧
  alive s' pid && negb (ignoring s' pid) = false.
Proof.
  cbn zeta. rewrite startup_with_cases. cbn zeta.
  pose proof (accounted_backend_awaited h bo during_backend) as Ha1.
  pose proof (accounted_frontend_awaited h fo during_frontend _ Ha1) as Ha2.
  set (s1 := backend_awaited h bo during_backend initial) in *.
  set (s2 := frontend_awaited h fo during_frontend s1) in *.
  assert (Hcatch : ∀ e' sx, accounted sx →
            (startup_catch h (next_window initial) e' sx).1 = Returned (Failed e) →
            let s' := (startup_catch h (next_window initial) e' sx).2 in
            tracked s' = [] ∧ last (trace s') = Some AppQuit ∧
            alive s' pid && negb (ignoring s' pid) = false).
  { intros e' sx Hax. unfold startup_catch.
    destruct (is_open _ sx); [|discriminate].
    intros _. apply accounted_failed, Hax. }
  destruct (settled (checkServer BACKEND_PORT STARTUP_TIMEOUT (clock initial) bo))
    as [[[v|e1] T]|].
  - destruct (settled (checkServer FRONTEND_PORT STARTUP_TIMEOUT T fo))
      as [[[v'|e2] T']|].
    + rewrite startup_finish_result.
      destruct (is_open _ s2); discriminate.
    + apply Hcatch, Ha2.
    + discriminate.
  - apply Hcatch, Ha1.
  - discriminate.
Qed.

Lemma failed_startup_leaves_nothing_tracked_witness :
  let h := Host Linux false (λ svc, bool_decide (svc = Frontend)) in
  let r := startup_with h (repeat (ConnError 1) 121)
             [ChildExit 0 (Some 1) None] [] [] initial in
  signalled (trace r.2) = [(1%nat, SIGTERM)] ∧
  alive r.2 1 = true ∧
  tracked r.2 = [] ∧
  last (trace r.2) = Some AppQuit ∧
  alive r.2 1 && negb (ignoring r.2 1) = false.
Proof.
  split; [vm_compute; reflexivity|]. split; [vm_compute; reflexivity|].
  apply (failed_startup_leaves_nothing_tracked
           (Host Linux false (λ svc, bool_decide (svc = Frontend)))
           (repeat (ConnError 1) 121) [] [ChildExit 0 (Some 1) None] []
           (DidNotStart BACKEND_PORT STARTUP_TIMEOUT) 1).
  vm_compute. reflexivity.
Defined.

(** X19: when no event arrives while it waits, the callback ends as
    [startup] has it: it returns, with the same result and in the same
    state. *)
Theorem startup_without_events
    (h : host) (bo fo : list outcome) (s : app) :
  startup_with h bo [] fo [] s =
    (Returned (startup h bo fo s).1, (startup h bo fo s).2).
Proof.
  rewrite startup_with_cases, startup_unfold. cbn zeta.
  destruct (backend_awaited_quiet h bo s) as (_ & Ho & _).
  pose proof (await_result BACKEND_PORT bo (launched h s)) as Hres.
  pose proof (await_clock BACKEND_PORT bo (launched h s)) as Hclk.
  pose proof (await_keeps BACKEND_PORT bo (launched h s)) as Hk.
  cbn zeta in Hk. destruct Hk as (_ & _ & _ & Hw & Hnw & _).
  rewrite launched_clock in Hres, Hclk.
  unfold backend_awaited in *. cbn [handle_all foldl] in *.
  destruct (await_checkServer BACKEND_PORT bo (launched h s)) as [r s1].
  cbn [fst snd] in *.
  destruct (settled (checkServer BACKEND_PORT STARTUP_TIMEOUT (clock s) bo))
    as [[[v|e] T]|]; cbn in Hres; subst r.
  - specialize (Hclk _ _ eq_refl).
    unfold frontend_awaited, after_backend_ready. cbn [handle_all foldl].
    set (sB := emit (Log "Waiting for frontend to be ready...")
                 (emit (Log "Backend is ready!") s1)).
    pose proof (await_result FRONTEND_PORT fo sB) as Hres.
    pose proof (await_keeps FRONTEND_PORT fo sB) as Hk.
    cbn zeta in Hk. destruct Hk as (_ & _ & _ & Hw' & Hnw' & _).
    assert (clock sB = T) as Hck by exact Hclk.
    rewrite Hck in Hres.
    destruct (await_checkServer FRONTEND_PORT fo sB) as [r s2].
    cbn [fst snd] in *.
    assert (Ho2 : is_open (next_window s) s2 = true).
    { rewrite (is_open_ext _ s1); [exact Ho|]. rewrite Hw'. reflexivity. }
    destruct (settled (checkServer FRONTEND_PORT STARTUP_TIMEOUT T fo))
      as [[[v'|e'] T']|]; cbn in Hres; subst r.
    + unfold startup_finish. cbn zeta.
      change (is_open (next_window s) (emit (Log "Frontend is ready!") s2))
        with (is_open (next_window s) s2).
      rewrite Ho2. reflexivity.
    + unfold startup_catch. rewrite Ho2. reflexivity.
    + reflexivity.
  - unfold startup_catch. rewrite Ho. reflexivity.
  - reflexivity.
Qed.

End StartupExtraTheorems.

(** ** Sessions: what every run keeps *)

Section SessionExtras.
Import Probe.

Lemma spawned_services_app (es es' : list effect) :
  spawned_services (es ++ es') = spawned_services es ++ spawned_services es'.
Proof. apply omap_app. Qed.

Lemma spawned_services_none (es : list effect) :
  spawned es = [] → spawned_services es = [].
Proof.
  induction es as [|e es IH]; [reflexivity|].
  destruct e; cbn; try exact IH. discriminate.
Qed.

Lemma harmless_nil : harmless [].
Proof. split; [reflexivity | constructor]. Qed.

Lemma harmless_app (es es' : list effect) :
  harmless es → harmless es' → harmless (es ++ es').
Proof.
  intros [Hs Hk] [Hs' Hk']. split.
  - rewrite spawned_services_app, Hs, Hs'. reflexivity.
  - rewrite signalled_app. apply Forall_app. split; assumption.
Qed.

Lemma harmless_http (run : list action) : harmless (map Http run).
Proof.
  split; [apply spawned_services_http|]. rewrite signalled_http. constructor.
Qed.

Lemma harmless_cleanup (s : app) : harmless (cleanup_effects s).
Proof.
  split; [apply spawned_services_none, spawned_cleanup | apply only_sigterm_cleanup].
Qed.

Lemma harmless_failure (loading : nat) (e : error) (s : app) :
  harmless (LogFailure e :: CloseWindow loading :: cleanup_effects s ++ [AppQuit]).
Proof.
  apply (harmless_app [LogFailure e; CloseWindow loading]).
  - split; [reflexivity | constructor].
  - apply harmless_app; [apply harmless_cleanup|].
    split; [reflexivity | constructor].
Qed.

Lemma startup_failed_children (loading : nat) (e : error) (s : app) :
  length (children (startup_failed loading e s)) = length (children s).
Proof.
  unfold startup_failed.
  change (children (app_quit ?x)) with (children x).
  rewrite cleanup_children_length. reflexivity.
Qed.

(** From ['Backend is ready!'] on, the callback starts no process. *)
Lemma after_backend_ready_extends (loading : nat) (fo : list outcome) (s : app) :
  ∃ es,
    trace (after_backend_ready loading fo s).2 = trace s ++ es ∧
    harmless es ∧
    length (children (after_backend_ready loading fo s).2) = length (children s).
Proof.
  unfold after_backend_ready.
  set (s1 := emit (Log "Waiting for frontend to be ready...")
               (emit (Log "Backend is ready!") s)).
  pose proof (await_trace FRONTEND_PORT fo s1) as Htr.
  pose proof (await_keeps FRONTEND_PORT fo s1) as Hkeep.
  cbn zeta in Hkeep. destruct Hkeep as (_ & _ & _ & _ & _ & Hch).
  assert (Htr1 : trace s1 = trace s ++
            [Log "Backend is ready!"; Log "Waiting for frontend to be ready..."]).
  { subst s1. cbn. rewrite <- app_assoc. reflexivity. }
  assert (Hch1 : children s1 = children s) by reflexivity.
  assert (Hlogs : harmless
            [Log "Backend is ready!"; Log "Waiting for frontend to be ready..."])
    by (split; [reflexivity | constructor]).
  set (frun := map Http (checkServer FRONTEND_PORT STARTUP_TIMEOUT (clock s1) fo)) in *.
  set (logs := [Log "Backend is ready!"; Log "Waiting for frontend to be ready..."]) in *.
  assert (Hfrun : harmless frun) by apply harmless_http.
  destruct (await_checkServer FRONTEND_PORT fo s1) as [[[v|e]|] s2];
    cbn [fst snd] in *.
  - exists (logs ++ frun ++
            [Log "Frontend is ready!"; CloseWindow loading;
             NewWindow MainWindow (next_window s2);
             LoadURL (next_window s2) FRONTEND_PORT]).
    split; [|split].
    + cbn [trace emit emit_all createWindow new_window close_window
           set_windows set_mainWindow snd].
      rewrite Htr, Htr1, <- !app_assoc. reflexivity.
    + apply harmless_app; [exact Hlogs|].
      apply harmless_app; [exact Hfrun|].
      split; [reflexivity | constructor].
    + cbn. congruence.
  - exists (logs ++ frun ++
            LogFailure e :: CloseWindow loading :: cleanup_effects s2 ++ [AppQuit]).
    split; [|split].
    + rewrite startup_failed_trace, Htr, Htr1, <- !app_assoc. reflexivity.
    + apply harmless_app; [exact Hlogs|].
      apply harmless_app; [exact Hfrun|]. apply harmless_failure.
    + rewrite startup_failed_children. congruence.
  - exists (logs ++ frun). split; [|split].
    + rewrite Htr, Htr1, <- !app_assoc. reflexivity.
    + apply harmless_app; [exact Hlogs | exact Hfrun].
    + congruence.
Qed.

(** The whole callback: exactly the backend and the frontend are spawned,
    in that order. *)
Lemma startup_extends (h : host) (bo fo : list outcome) (s : app) :
  ∃ es es',
    trace (startup h bo fo s).2 = trace s ++ es ++ es' ∧
    spawned_services es = [Backend; Frontend] ∧
    signalled es = [] ∧
    harmless es' ∧
    length (children (startup h bo fo s).2) = S (S (length (children s))).
Proof.
  rewrite startup_unfold.
  pose proof (await_trace BACKEND_PORT bo (launched h s)) as Htr.
  rewrite launched_trace in Htr.
  pose proof (await_keeps BACKEND_PORT bo (launched h s)) as Hkeep.
  cbn zeta in Hkeep. destruct Hkeep as (_ & _ & _ & _ & _ & Hch).
  pose proof (launched_session h s) as Hl. unfold session in Hl.
  assert (Hlen : length (children (launched h s)) = S (S (length (children s)))).
  { assert (children (launched h s) =
            children s ++ [Child Backend (ignores_term h Backend) true [];
                           Child Frontend (ignores_term h Frontend) true []])
      as -> by congruence.
    rewrite length_app. cbn. lia. }
  exists (startup_prologue h s).
  set (brun := map Http (checkServer BACKEND_PORT STARTUP_TIMEOUT
                           (clock (launched h s)) bo)) in *.
  assert (Hbrun : harmless brun) by apply harmless_http.
  destruct (await_checkServer BACKEND_PORT bo (launched h s)) as [[[v|e]|] s1];
    cbn [fst snd] in *.
  - destruct (after_backend_ready_extends (next_window s) fo s1)
      as (es & Hes & Hh & Hl').
    exists (brun ++ es).
    split; [|split; [reflexivity|split; [reflexivity|split]]].
    + rewrite Hes, Htr, <- !app_assoc. reflexivity.
    + apply harmless_app; [exact Hbrun | exact Hh].
    + congruence.
  - exists (brun ++ LogFailure e :: CloseWindow (next_window s) ::
                    cleanup_effects s1 ++ [AppQuit]).
    split; [|split; [reflexivity|split; [reflexivity|split]]].
    + rewrite startup_failed_trace, Htr, <- !app_assoc. reflexivity.
    + apply harmless_app; [exact Hbrun | apply harmless_failure].
    + rewrite startup_failed_children. congruence.
  - exists (brun ++ []).
    split; [|split; [reflexivity|split; [reflexivity|split]]].
    + rewrite Htr, app_nil_r, <- !app_assoc. reflexivity.
    + apply harmless_app; [exact Hbrun | apply harmless_nil].
    + congruence.
Qed.

(** With no process tracked, a handler tracks none and sends no signal. *)
Lemma handle_untracked (h : host) (ev : event) (s : app) :
  tracked s = [] →
  tracked (handle h ev s) = [] ∧
  ∃ es, trace (handle h ev s) = trace s ++ es ∧ signalled es = [].
Proof.
  intros Ht.
  assert (pythonProcess s = None ∧ nextProcess s = None) as [Hp Hn].
  { unfold tracked in Ht.
    destruct (pythonProcess s), (nextProcess s); try discriminate.
    split; reflexivity. }
  assert (Hcl : cleanup s = emit (Log "Cleaning up...") s)
    by (apply cleanup_untracked; assumption).
  destruct ev as [id| | | |pid code sig|pid| |]; cbn [handle].
  - unfold on_closed. split.
    + destruct (bool_decide _); unfold tracked; cbn; rewrite Hp, Hn; reflexivity.
    + exists []. destruct (bool_decide _); cbn; rewrite app_nil_r;
        split; reflexivity.
  - unfold on_window_all_closed. rewrite Hcl.
    destruct (host_platform h); (split; [exact Ht|]).
    + exists [Log "Cleaning up..."]. split; reflexivity.
    + exists [Log "Cleaning up..."; AppQuit]. cbn.
      rewrite <- app_assoc. split; reflexivity.
    + exists [Log "Cleaning up..."; AppQuit]. cbn.
      rewrite <- app_assoc. split; reflexivity.
  - rewrite Hcl. split; [exact Ht|].
    exists [Log "Cleaning up..."]. split; reflexivity.
  - unfold on_activate. case_bool_decide.
    + split; [exact Ht|]. eexists [_]. split; reflexivity.
    + split; [exact Ht|]. exists []. rewrite app_nil_r. split; reflexivity.
  - destruct (children s !! pid) as [c|].
    + split.
      * unfold tracked. destruct (ch_service c); cbn; rewrite ?Hp, ?Hn; reflexivity.
      * exists [LogExit (ch_service c) code sig].
        destruct (ch_service c); split; reflexivity.
    + split; [exact Ht|]. exists []. rewrite app_nil_r. split; reflexivity.
  - destruct (children s !! pid) as [c|].
    + split; [exact Ht|]. eexists [_]. split; reflexivity.
    + split; [exact Ht|]. exists []. rewrite app_nil_r. split; reflexivity.
  - assert (Hcl' : cleanup (emit (LogError "Uncaught exception:") s) =
                   emit (Log "Cleaning up...")
                     (emit (LogError "Uncaught exception:") s))
      by (apply cleanup_untracked; assumption).
    rewrite Hcl'. split; [exact Ht|].
    exists [LogError "Uncaught exception:"; Log "Cleaning up..."; AppQuit].
    cbn. rewrite <- !app_assoc. split; reflexivity.
  - split; [exact Ht|]. eexists [_]. split; reflexivity.
Qed.

End SessionExtras.

Section SessionExtraTheorems.
Import Probe.

(** X6: no event handler starts a process: whatever events arrive, in
    whatever state, nothing is spawned and the set of child processes
    stays the same, so a service that was stopped or has died is never
    started again. *)
Theorem handlers_never_spawn (h : host) (evs : list event) (s : app) :
  spawned (new_effects s (handle_all h evs s)) = [] ∧
  length (children (handle_all h evs s)) = length (children s).
Proof.
  destruct (handle_all_extends h evs s) as (es & Htr & Hsp & _ & Hlen).
  rewrite (new_effects_app _ _ _ Htr). split; assumption.
Qed.

(** X7: over a whole session (the startup callback, then any events) the
    program spawns exactly two processes, the backend and then the
    frontend, and every signal it sends is [SIGTERM]. *)
Theorem session_spawns_two_and_only_sends_sigterm
    (h : host) (bo fo : list outcome) (evs : list event) :
  spawned_services (trace (run_app h bo fo evs)) = [Backend; Frontend] ∧
  length (children (run_app h bo fo evs)) = 2%nat ∧
  Forall (λ x, x.2 = SIGTERM) (signalled (trace (run_app h bo fo evs))).
Proof.
  unfold run_app.
  destruct (startup_extends h bo fo initial)
    as (es & es' & Htr & Hsp & Hsg & [Hsp' Hk'] & Hlen).
  destruct (handle_all_extends h evs (startup h bo fo initial).2)
    as (es2 & Htr2 & Hsp2 & Hk2 & Hlen2).
  rewrite Htr2, Htr, Hlen2, Hlen. cbn [trace initial List.app].
  rewrite !spawned_services_app, !signalled_app, Hsp, Hsp', Hsg,
    (spawned_services_none _ Hsp2).
  repeat split. apply Forall_app. split; assumption.
Qed.

(** X8: once no process is tracked (after [cleanup], or when both services
    have exited) no later event sends a signal, and no process is tracked
    again. *)
Theorem nothing_is_signalled_after_teardown
    (h : host) (evs : list event) (s : app) :
  tracked s = [] →
  tracked (handle_all h evs s) = [] ∧
  signalled (new_effects s (handle_all h evs s)) = [].
Proof.
  revert s. induction evs as [|ev evs IH]; intros s Ht.
  - split; [exact Ht|]. unfold new_effects. cbn. rewrite drop_all. reflexivity.
  - change (handle_all h (ev :: evs) s) with (handle_all h evs (handle h ev s)).
    destruct (handle_untracked h ev s Ht) as (Ht1 & es & Htr & Hsg).
    destruct (IH _ Ht1) as [Ht2 Hsg2]. split; [exact Ht2|].
    destruct (handle_all_extends h evs (handle h ev s)) as (es2 & Htr2 & _).
    rewrite (new_effects_app _ _ _ Htr2) in Hsg2.
    rewrite (new_effects_app s _ (es ++ es2)).
    + rewrite signalled_app, Hsg, Hsg2. reflexivity.
    + rewrite Htr2, Htr, <- app_assoc. reflexivity.
Qed.

Lemma nothing_is_signalled_after_teardown_witness :
  let h := Host Linux false (λ _, false) in
  let s := cleanup (startup h [Response 200 5] [Response 200 5] initial).2 in
  let evs := [ChildExit 0 None (Some SIGTERM); WindowAllClosed; OnQuit;
              UncaughtException] in
  tracked (handle_all h evs s) = [] ∧
  signalled (new_effects s (handle_all h evs s)) = [].
Proof.
  exact (nothing_is_signalled_after_teardown
           (Host Linux false (λ _, false))
           [ChildExit 0 None (Some SIGTERM); WindowAllClosed; OnQuit;
            UncaughtException]
           (cleanup (startup (Host Linux false (λ _, false))
                       [Response 200 5] [Response 200 5] initial).2)
           eq_refl).
Defined.

End SessionExtraTheorems.

(** ** Invariants of a session *)

Section InvariantExtras.
Import Probe.

Lemma holds_ext (s s' : app) (proc : option nat) (svc : service) :
  children s' = children s → holds s proc svc → holds s' proc svc.
Proof. unfold holds. intros ->. exact id. Qed.

Lemma consistent_ext (s s' : app) :
  pythonProcess s' = pythonProcess s →
  nextProcess s' = nextProcess s →
  children s' = children s →
  consistent s → consistent s'.
Proof.
  unfold consistent. intros Hp Hn Hc (H1 & H2 & H3).
  rewrite Hp, Hn, Hc. repeat split; try assumption;
    eapply holds_ext; eassumption.
Qed.

Lemma deliver_once (c : child) :
  ch_signals c = [] → signalled_once (deliver SIGTERM c).
Proof.
  intros Hs. unfold signalled_once, deliver.
  destruct (ch_alive c); cbn; rewrite Hs; [right | left]; reflexivity.
Qed.

Lemma terminate_once (proc : option nat) (cs : list child) :
  Forall signalled_once cs →
  (∀ pid c, proc = Some pid → cs !! pid = Some c → ch_signals c = []) →
  Forall signalled_once (terminate proc cs).
Proof.
  intros Hall Hfresh. destruct proc as [pid|]; [|exact Hall].
  apply Forall_alter; [exact Hall|].
  intros c Hc _. apply deliver_once. eapply Hfresh; [reflexivity | exact Hc].
Qed.

Lemma consistent_cleanup (s : app) : consistent s → consistent (cleanup s).
Proof.
  intros (Hb & Hf & Hall).
  pose proof (cleanup_session s) as Hs. unfold session in Hs.
  assert (Hp : pythonProcess (cleanup s) = None) by congruence.
  assert (Hn : nextProcess (cleanup s) = None) by congruence.
  assert (Hc : children (cleanup s) =
            terminate (nextProcess s) (terminate (pythonProcess s) (children s)))
    by congruence.
  unfold consistent. rewrite Hp, Hn, Hc. repeat split.
  apply terminate_once.
  - apply terminate_once; [exact Hall|].
    intros pid c Hpid Hc'. rewrite Hpid in Hb.
    destruct Hb as (c0 & Hc0 & _ & Hsig). congruence.
  - intros q c Hq Hc'. rewrite Hq in Hf.
    destruct Hf as (cq & Hcq & Hsvc & Hsig).
    rewrite terminate_lookup in Hc'. case_bool_decide as Hpq.
    + rewrite Hpq in Hb. destruct Hb as (cp & Hcp & Hsvcp & _).
      assert (cp = cq) by congruence. subst cp. congruence.
    + congruence.
Qed.

Lemma exited_once (c : child) : signalled_once c → signalled_once (exited c).
Proof. exact id. Qed.

Lemma holds_exited (s : app) (proc : option nat) (svc : service) (pid : nat) :
  holds s proc svc →
  holds (set_children (alter exited pid (children s)) s) proc svc.
Proof.
  unfold holds. destruct proc as [q|]; [|exact id].
  intros (c & Hc & Hsvc & Hsig). cbn [children set_children].
  destruct (decide (pid = q)) as [->|Hne].
  - exists (exited c). rewrite list_lookup_alter_eq, Hc. repeat split; assumption.
  - exists c. rewrite list_lookup_alter_ne by exact Hne. repeat split; assumption.
Qed.

Lemma consistent_exit (s : app) (pid : nat) (c : child)
    (code : option Z) (sig : option signal) :
  consistent s →
  consistent (on_exit (ch_service c) code sig
                (set_children (alter exited pid (children s)) s)).
Proof.
  intros (Hb & Hf & Hall).
  pose proof (holds_exited s _ _ pid Hb) as Hb'.
  pose proof (holds_exited s _ _ pid Hf) as Hf'.
  assert (Hall' : Forall signalled_once (alter exited pid (children s))).
  { apply Forall_alter; [exact Hall|]. intros x _ Hx. exact Hx. }
  destruct (ch_service c); unfold consistent; cbn in *; repeat split; assumption.
Qed.

Lemma consistent_handle (h : host) (ev : event) (s : app) :
  consistent s → consistent (handle h ev s).
Proof.
  intros Hs. destruct ev as [id| | | |pid code sig|pid| |]; cbn [handle].
  - unfold on_closed. destruct (bool_decide _);
      (eapply consistent_ext; [..|exact Hs]); reflexivity.
  - unfold on_window_all_closed. apply consistent_cleanup in Hs.
    destruct (host_platform h); [exact Hs | |];
      (eapply consistent_ext; [..|exact Hs]); reflexivity.
  - apply consistent_cleanup, Hs.
  - unfold on_activate. case_bool_decide; [|exact Hs].
    eapply consistent_ext; [..|exact Hs]; reflexivity.
  - destruct (children s !! pid) as [c|]; [|exact Hs].
    apply consistent_exit, Hs.
  - destruct (children s !! pid) as [c|]; [|exact Hs].
    eapply consistent_ext; [..|exact Hs]; reflexivity.
  - eapply (consistent_ext (cleanup (emit (LogError "Uncaught exception:") s)));
      try reflexivity.
    apply consistent_cleanup.
    eapply consistent_ext; [..|exact Hs]; reflexivity.
  - eapply consistent_ext; [..|exact Hs]; reflexivity.
Qed.

Lemma consistent_handle_all (h : host) (evs : list event) :
  ∀ s, consistent s → consistent (handle_all h evs s).
Proof.
  induction evs as [|ev evs IH]; intros s Hs; [exact Hs|].
  apply (IH (handle h ev s)), consistent_handle, Hs.
Qed.

Lemma consistent_launched (h : host) (s : app) :
  Forall signalled_once (children s) → consistent (launched h s).
Proof.
  intros Hall.
  pose proof (launched_session h s) as Hl. unfold session in Hl.
  assert (Hp : pythonProcess (launched h s) = Some (length (children s)))
    by congruence.
  assert (Hn : nextProcess (launched h s) = Some (S (length (children s))))
    by congruence.
  assert (Hc : children (launched h s) =
            children s ++ [Child Backend (ignores_term h Backend) true [];
                           Child Frontend (ignores_term h Frontend) true []])
    by congruence.
  unfold consistent, holds. rewrite Hp, Hn, Hc. repeat split.
  - eexists. rewrite lookup_app_r, Nat.sub_diag by lia.
    repeat split; reflexivity.
  - eexists. rewrite lookup_app_r by lia.
    replace (S (length (children s)) - length (children s))%nat with 1%nat by lia.
    repeat split; reflexivity.
  - apply Forall_app. split; [exact Hall|].
    repeat constructor.
Qed.

Lemma consistent_failed (loading : nat) (e : error) (s : app) :
  consistent s → consistent (startup_failed loading e s).
Proof.
  intros Hs. unfold startup_failed.
  eapply (consistent_ext (cleanup (close_window loading (emit (LogFailure e) s))));
    try reflexivity.
  apply consistent_cleanup.
  eapply consistent_ext; [..|exact Hs]; reflexivity.
Qed.

Lemma consistent_await (port : Z) (outs : list outcome) (s : app) :
  consistent s → consistent (await_checkServer port outs s).2.
Proof.
  intros Hs. destruct (await_keeps port outs s) as (_ & Hp & Hn & _ & _ & Hc).
  eapply consistent_ext; eassumption.
Qed.

Lemma consistent_startup (h : host) (bo fo : list outcome) (s : app) :
  Forall signalled_once (children s) → consistent (startup h bo fo s).2.
Proof.
  intros Hall. rewrite startup_unfold.
  pose proof (consistent_await BACKEND_PORT bo _ (consistent_launched h s Hall))
    as H1.
  destruct (await_checkServer BACKEND_PORT bo (launched h s)) as [[[v|e]|] s1];
    cbn [fst snd] in *; [| apply consistent_failed, H1 | exact H1].
  unfold after_backend_ready.
  set (s1' := emit (Log "Waiting for frontend to be ready...")
                (emit (Log "Backend is ready!") s1)).
  assert (H1' : consistent s1')
    by (eapply consistent_ext; [..|exact H1]; reflexivity).
  pose proof (consistent_await FRONTEND_PORT fo _ H1') as H2.
  destruct (await_checkServer FRONTEND_PORT fo s1') as [[[v'|e]|] s2];
    cbn [fst snd] in *; [| apply consistent_failed, H2 | exact H2].
  eapply consistent_ext; [..|exact H2]; reflexivity.
Qed.

Lemma remove_window_length (id : nat) (ws : list (nat * window_kind)) :
  (length (remove_window id ws) ≤ length ws)%nat.
Proof. apply length_filter. Qed.

Lemma remove_only_window (id : nat) (k : window_kind) :
  remove_window id [(id, k)] = [].
Proof.
  unfold remove_window. rewrite filter_cons.
  case_decide as Hd; [cbn in Hd; congruence | reflexivity].
Qed.

Lemma handle_windows (h : host) (ev : event) (s : app) :
  (length (windows s) ≤ 1)%nat → (length (windows (handle h ev s)) ≤ 1)%nat.
Proof.
  intros Hw.
  pose proof (cleanup_session s) as Hcs. unfold session in Hcs.
  assert (Hcw : windows (cleanup s) = windows s) by congruence.
  destruct ev as [id| | | |pid code sig|pid| |]; cbn [handle].
  - unfold on_closed. pose proof (remove_window_length id (windows s)).
    destruct (bool_decide _); cbn; lia.
  - unfold on_window_all_closed.
    destruct (host_platform h); cbn; rewrite Hcw; exact Hw.
  - rewrite Hcw. exact Hw.
  - unfold on_activate. case_bool_decide as H0; [|exact Hw].
    cbn. rewrite length_app, H0. cbn. lia.
  - destruct (children s !! pid) as [c|]; [|exact Hw].
    destruct (ch_service c); exact Hw.
  - destruct (children s !! pid) as [c|]; exact Hw.
  - pose proof (cleanup_session (emit (LogError "Uncaught exception:") s)) as Hcs'.
    unfold session in Hcs'.
    assert (Hw' : windows (cleanup (emit (LogError "Uncaught exception:") s)) =
                  windows (emit (LogError "Uncaught exception:") s))
      by congruence.
    change (windows (app_quit ?x)) with (windows x).
    rewrite Hw'. exact Hw.
  - exact Hw.
Qed.

Lemma startup_windows (h : host) (bo fo : list outcome) (s : app) :
  windows s = [] → (length (windows (startup h bo fo s).2) ≤ 1)%nat.
Proof.
  intros Hw. rewrite startup_unfold.
  pose proof (launched_session h s) as Hl. unfold session in Hl.
  assert (Hlw : windows (launched h s) = [(next_window s, LoadingWindow)]).
  { assert (windows (launched h s) =
            windows s ++ [(next_window s, LoadingWindow)]) as -> by congruence.
    rewrite Hw. reflexivity. }
  destruct (await_keeps BACKEND_PORT bo (launched h s)) as (_ & _ & _ & Hw1 & _).
  rewrite Hlw in Hw1.
  destruct (await_checkServer BACKEND_PORT bo (launched h s)) as [[[v|e]|] s1];
    cbn [fst snd] in *.
  - unfold after_backend_ready.
    set (s1' := emit (Log "Waiting for frontend to be ready...")
                  (emit (Log "Backend is ready!") s1)).
    destruct (await_keeps FRONTEND_PORT fo s1') as (_ & _ & _ & Hw2 & _).
    change (windows s1') with (windows s1) in Hw2. rewrite Hw1 in Hw2.
    destruct (await_checkServer FRONTEND_PORT fo s1') as [[[v'|e]|] s2];
      cbn [fst snd] in *.
    + cbn [windows emit emit_all createWindow new_window close_window
           set_windows set_mainWindow snd fst].
      rewrite Hw2, remove_only_window. cbn. lia.
    + destruct (startup_failed_state (next_window s) e s2) as (_ & _ & -> & _).
      rewrite Hw2, remove_only_window. cbn. lia.
    + rewrite Hw2. cbn. lia.
  - destruct (startup_failed_state (next_window s) e s1) as (_ & _ & -> & _).
    rewrite Hw1, remove_only_window. cbn. lia.
  - rewrite Hw1. cbn. lia.
Qed.

End InvariantExtras.

Section InvariantExtraTheorems.
Import Probe.

(** X9: in every state of a session no process has been signalled twice:
    a process the program still tracks has received no signal, and any
    other process has received nothing or a single [SIGTERM]. *)
Theorem no_process_is_signalled_twice
    (h : host) (bo fo : list outcome) (evs : list event) (pid : nat) :
  if bool_decide (pid ∈ tracked (run_app h bo fo evs))
  then received (run_app h bo fo evs) pid = []
  else received (run_app h bo fo evs) pid = [] ∨
       received (run_app h bo fo evs) pid = [SIGTERM].
Proof.
  assert (Hc : consistent (run_app h bo fo evs)).
  { apply consistent_handle_all, consistent_startup. constructor. }
  destruct Hc as (Hb & Hf & Hall). unfold received.
  case_bool_decide as Hin.
  - apply elem_of_tracked in Hin. destruct Hin as [Hp|Hn].
    + rewrite Hp in Hb. destruct Hb as (c & -> & _ & Hsig). exact Hsig.
    + rewrite Hn in Hf. destruct Hf as (c & -> & _ & Hsig). exact Hsig.
  - destruct (children (run_app h bo fo evs) !! pid) as [c|] eqn:Hc;
      [|left; reflexivity].
    exact (Forall_lookup_1 _ _ _ _ Hall Hc).
Qed.

(** X10: in every state of a session at most one window is open: the
    loading window during startup, or one main window afterwards. *)
Theorem at_most_one_window_is_open
    (h : host) (bo fo : list outcome) (evs : list event) :
  (length (windows (run_app h bo fo evs)) ≤ 1)%nat.
Proof.
  unfold run_app.
  assert (H0 : (length (windows (startup h bo fo initial).2) ≤ 1)%nat)
    by (apply startup_windows; reflexivity).
  revert H0. generalize (startup h bo fo initial).2.
  induction evs as [|ev evs IH]; intros s Hs; [exact Hs|].
  apply (IH (handle h ev s)), handle_windows, Hs.
Qed.

(** X11: ['activate'] is idempotent: it creates a main window only when no
    window is open, so a second ['activate'] changes nothing. *)
Theorem activate_is_idempotent (h : host) (s : app) :
  handle h Activate (handle h Activate s) = handle h Activate s.
Proof.
  cbn [handle].
  destruct (decide (length (windows s) = 0%nat)) as [H0|H0].
  - assert (E : on_activate s = (createWindow s).2)
      by (unfold on_activate; rewrite bool_decide_eq_true_2; [reflexivity | exact H0]).
    rewrite E. unfold on_activate.
    rewrite bool_decide_eq_false_2; [reflexivity|].
    cbn. rewrite length_app. cbn. lia.
  - assert (E : on_activate s = s)
      by (unfold on_activate; rewrite bool_decide_eq_false_2; [reflexivity | exact H0]).
    rewrite !E. reflexivity.
Qed.

End InvariantExtraTheorems.

(** ** The environment of the spawned services *)

Section SpawnEnvironment.

(** X12: the environment handed to a service is the environment of the
    app with the service's own settings laid over it.  The backend gets
    [PYTHONUNBUFFERED=1]; the frontend gets [PORT=3000] and
    [NEXT_PUBLIC_API_URL=http://localhost:8000], and [HOSTNAME=127.0.0.1]
    in the packaged app only.  These settings win over a variable of the
    same name in the app's environment, and every other variable is
    inherited as it is. *)
Theorem spawn_environment_overrides
    (h : host) (process_env : gmap string string) (k : string) :
  backend_env process_env !! k =
    (if bool_decide (k = "PYTHONUNBUFFERED") then Some "1"
     else process_env !! k) ∧
  frontend_env h process_env !! k =
    (if bool_decide (k = "NEXT_PUBLIC_API_URL") then Some "http://localhost:8000"
     else if bool_decide (k = "PORT") then Some "3000"
     else if bool_decide (k = "HOSTNAME") && isPackaged h then Some "127.0.0.1"
     else process_env !! k).
Proof.
  split.
  - unfold backend_env. rewrite lookup_insert.
    case_decide; case_bool_decide; congruence.
  - unfold frontend_env.
    destruct (isPackaged h); rewrite !lookup_insert;
      repeat case_decide; repeat case_bool_decide; subst;
      try reflexivity; try congruence; try discriminate.
Qed.

End SpawnEnvironment.

(** ** The preload script *)

Section PreloadExtras.
Context {D E A R : Type}.

(** X13: the channels of the preload bridge are one-way: no channel is
    accepted both by [send] and by [receive], so on any channel either
    [send] forwards nothing or [receive] installs no listener. *)
Theorem preload_channels_are_one_way
    (channel : string) (data : D) (func : list A → R) :
  Preload.send channel data = [] ∨
  Preload.receive (E:=E) channel func = None.
Proof.
  unfold Preload.send, Preload.receive.
  case_bool_decide as Hs; [|left; reflexivity].
  case_bool_decide as Hr; [|right; reflexivity].
  exfalso. unfold Preload.send_channels, Preload.receive_channels in *.
  set_unfold. destruct Hs as [->|[->|[->|[]]]];
    destruct Hr as [Hr|[Hr|[]]]; discriminate.
Qed.

End PreloadExtras.

(** ** The Next.js configuration *)

Section NextConfigExtras.
Context {A : Type}.
Import NextConfig.

Lemma disable_node_modules_twice (m : gmap string fallback) :
  <["tls" := Disabled]> (<["net" := Disabled]> (<["fs" := Disabled]>
    (<["tls" := Disabled]> (<["net" := Disabled]> (<["fs" := Disabled]> m))))) =
  <["tls" := Disabled]> (<["net" := Disabled]> (<["fs" := Disabled]> m)).
Proof.
  apply map_eq. intros k. rewrite !lookup_insert.
  repeat case_decide; reflexivity.
Qed.

(** X14: for a client build [webpack] turns off the fallbacks of [fs],
    [net] and [tls], also when they were set to a module or when
    [resolve.fallback] was undefined, and keeps every other fallback and
    the rest of the configuration; for a server build it returns the
    configuration unchanged. *)
Theorem webpack_disables_node_modules (c : config A) (k : string) :
  spread (resolve_fallback (webpack c false)) !! k =
    (if bool_decide (k ∈ ["fs"; "net"; "tls"]) then Some Disabled
     else spread (resolve_fallback c) !! k) ∧
  others (webpack c false) = others c ∧
  webpack c true = c.
Proof.
  repeat split. unfold webpack. cbn. rewrite !lookup_insert.
  case_bool_decide as Hk.
  - set_unfold. destruct Hk as [->|[->|[->|[]]]];
      repeat case_decide; try reflexivity; congruence.
  - set_unfold. repeat case_decide; subst; try reflexivity; exfalso; tauto.
Qed.

(** X15: [webpack] is idempotent: applied to its own result, for the same
    kind of build, it changes nothing. *)
Theorem webpack_is_idempotent (c : config A) (isServer : bool) :
  webpack (webpack c isServer) isServer = webpack c isServer.
Proof.
  destruct isServer; [reflexivity|].
  unfold webpack. cbn. rewrite disable_node_modules_twice. reflexivity.
Qed.

End NextConfigExtras.

(** ** The polling loops of the launcher script *)

Section ScriptExtras.
Import StartScript.

Lemma slept_cons (st : step) (tr : list step) :
  slept (st :: tr) =
    match st with Sleep n => n + slept tr | _ => slept tr end.
Proof. reflexivity. Qed.

Lemma slept_app (tr tr' : list step) : slept (tr ++ tr') = slept tr + slept tr'.
Proof.
  induction tr as [|st tr IH]; [reflexivity|].
  rewrite <- app_comm_cons, !slept_cons, IH. destruct st; lia.
Qed.

Lemma slept_poll (url msg : string) (ready : nat → bool) (rs : list nat) :
  0 <= slept (poll url msg ready rs) <= Z.of_nat (length rs).
Proof.
  induction rs as [|i rs IH]; [cbn; lia|].
  cbn [poll]. rewrite slept_cons. destruct (ready i).
  - rewrite slept_cons. change (slept []) with 0. cbn [length]. lia.
  - rewrite slept_cons. cbn [length]. lia.
Qed.

Lemma electron_runs_app (tr tr' : list step) :
  electron_runs (tr ++ tr') = (electron_runs tr + electron_runs tr')%nat.
Proof. unfold electron_runs. rewrite filter_app, length_app. reflexivity. Qed.

Lemma electron_runs_poll (url msg : string) (ready : nat → bool) (rs : list nat) :
  electron_runs (poll url msg ready rs) = 0%nat.
Proof.
  induction rs as [|i rs IH]; [reflexivity|].
  cbn [poll]. destruct (ready i); [reflexivity | exact IH].
Qed.

(** X16: a polling loop stops at the first successful [curl]: every
    earlier round is a [curl] followed by a one-second sleep, the
    successful round prints the message, and the remaining rounds are not
    run. *)
Theorem poll_stops_at_first_success
    (url msg : string) (ready : nat → bool) (before : list nat) (i : nat)
    (rest : list nat) :
  Forall (λ j, ready j = false) before →
  ready i = true →
  poll url msg ready (before ++ i :: rest) =
    concat (map (λ _, failed_round url) before) ++ [Curl url; Echo msg].
Proof.
  intros Hb Hi. induction Hb as [|j before Hj _ IH].
  - cbn. rewrite Hi. reflexivity.
  - cbn. rewrite Hj. cbn in IH. rewrite IH. reflexivity.
Qed.

Lemma poll_stops_at_first_success_witness :
  poll "http://localhost:3000" "Frontend is ready!" (λ j, 3 <=? j)%nat
       ([1; 2] ++ 3 :: [4; 5])%nat =
    concat (map (λ _, failed_round "http://localhost:3000") [1; 2]%nat) ++
    [Curl "http://localhost:3000"; Echo "Frontend is ready!"].
Proof.
  apply (poll_stops_at_first_success "http://localhost:3000" "Frontend is ready!"
           (λ j, 3 <=? j)%nat [1; 2]%nat 3%nat [4; 5]%nat).
  - repeat constructor.
  - reflexivity.
Defined.

(** X17: a polling loop whose [curl]s all fail gives up without an error:
    it is one [curl] and one sleep per round and nothing else, neither a
    message nor an [exit], so the script goes on after it. *)
Theorem poll_gives_up_without_error
    (url msg : string) (ready : nat → bool) (rs : list nat) :
  Forall (λ j, ready j = false) rs →
  poll url msg ready rs = concat (map (λ _, failed_round url) rs).
Proof.
  intros Hr. induction Hr as [|j rs Hj _ IH]; [reflexivity|].
  cbn. rewrite Hj. cbn in IH. rewrite IH. reflexivity.
Qed.

Lemma poll_gives_up_without_error_witness :
  poll "http://localhost:8000/routes/health" "Backend is ready!" (λ _, false)
       rounds =
    concat (map (λ _, failed_round "http://localhost:8000/routes/health") rounds).
Proof.
  apply (poll_gives_up_without_error "http://localhost:8000/routes/health"
           "Backend is ready!" (λ _, false) rounds).
  apply Forall_forall. intros j _. reflexivity.
Defined.

Lemma electron_runs_cons (st : step) (tr : list step) :
  electron_runs (st :: tr) =
    (match st with Electron => 1 | _ => 0 end + electron_runs tr)%nat.
Proof. destruct st; reflexivity. Qed.

Lemma electron_runs_take (tr : list step) :
  electron_runs tr = 0%nat → ∀ n, electron_runs (take n tr) = 0%nat.
Proof.
  induction tr as [|st tr IH]; intros H n; [destruct n; reflexivity|].
  destruct n as [|n]; [reflexivity|].
  rewrite electron_runs_cons in H. cbn [take]. rewrite electron_runs_cons.
  destruct st; try discriminate; exact (IH H n).
Qed.

Lemma slept_take (tr : list step) :
  sleeps_forward tr → ∀ n, 0 <= slept (take n tr) <= slept tr.
Proof.
  induction 1 as [|st tr Hst _ IH]; intros n; [destruct n; cbn; lia|].
  destruct n as [|n].
  - cbn [take]. change (slept []) with 0. rewrite slept_cons.
    specialize (IH 0%nat). cbn [take] in IH. change (slept []) with 0 in IH.
    destruct st; lia.
  - cbn [take]. rewrite !slept_cons. specialize (IH n). destruct st; lia.
Qed.

Lemma poll_sleeps_forward (url msg : string) (ready : nat → bool)
    (rs : list nat) :
  sleeps_forward (poll url msg ready rs).
Proof.
  induction rs as [|i rs IH]; [constructor|].
  cbn [poll]. constructor; [exact I|].
  destruct (ready i); repeat constructor. lia. exact IH.
Qed.

Lemma body_sleeps_forward (e : env) : sleeps_forward (body e).
Proof.
  unfold body, until_electron, sleeps_forward.
  destruct (cd_api_ok e); [|repeat constructor].
  generalize rounds. intros rs.
  repeat first
    [ apply Forall_app; split
    | apply poll_sleeps_forward
    | apply Forall_cons; split; [exact I|]
    | apply Forall_nil; exact I ].
  destruct (electron_status e =? 0); repeat constructor.
Qed.

Lemma body_slept (e : env) : 0 <= slept (body e) <= 60.
Proof.
  unfold body, until_electron.
  destruct (cd_api_ok e); [|cbn; lia].
  pose proof (slept_poll "http://localhost:8000/routes/health"
                "Backend is ready!" (backend_health e) rounds) as Hb.
  pose proof (slept_poll "http://localhost:3000" "Frontend is ready!"
                (frontend_up e) rounds) as Hf.
  change (Z.of_nat (length rounds)) with 30 in Hb, Hf.
  revert Hb Hf. generalize rounds. intros rs Hb Hf.
  rewrite !slept_app.
  destruct (electron_status e =? 0); cbn; lia.
Qed.

Lemma until_electron_runs (e : env) : electron_runs (until_electron e) = 0%nat.
Proof.
  unfold until_electron. generalize rounds. intros rs.
  rewrite !electron_runs_app, !electron_runs_poll. reflexivity.
Qed.

(** Whether a run of the body cut after [n] commands has started
    Electron. *)
Lemma electron_runs_body (e : env) (n : nat) :
  electron_runs (take n (body e)) =
    if cd_api_ok e && (electron_at e <? n)%nat then 1%nat else 0%nat.
Proof.
  unfold body, electron_at.
  destruct (cd_api_ok e); cbn [andb].
  - pose proof (until_electron_runs e) as Hu.
    set (pre := until_electron e) in *. clearbody pre.
    set (post := if electron_status e =? 0 then [Wait] else []).
    assert (Hpost : electron_runs post = 0%nat)
      by (subst post; destruct (electron_status e =? 0); reflexivity).
    clearbody post.
    destruct n as [|[|n]]; [reflexivity..|].
    cbn [List.app take]. rewrite !electron_runs_cons. cbn [Nat.add].
    rewrite take_app, electron_runs_app, (electron_runs_take _ Hu), Nat.add_0_l.
    destruct (Nat.ltb_spec (S (S (length pre))) (S (S n))) as [Hlt|Hge].
    + destruct (n - length pre)%nat as [|m] eqn:Hm; [lia|].
      cbn [take]. rewrite electron_runs_cons, (electron_runs_take _ Hpost).
      reflexivity.
    + replace (n - length pre)%nat with 0%nat by lia. reflexivity.
  - destruct n as [|[|[|n]]]; reflexivity.
Qed.

Lemma electron_runs_whole_body (e : env) :
  electron_runs (body e) = if cd_api_ok e then 1%nat else 0%nat.
Proof.
  unfold body. destruct (cd_api_ok e); [|reflexivity].
  rewrite !electron_runs_app, until_electron_runs.
  destruct (electron_status e =? 0); reflexivity.
Qed.

(** X18: when its two [cd]s succeed and no signal ends it first, the
    script starts Electron exactly once, whatever its [curl]s found; a
    [SIGINT] or [SIGTERM] handled before [pnpm electron:start] ends the
    script without Electron, and a failing [cd] does so too.  In every
    run the script has slept at most sixty seconds in all. *)
Theorem script_reaches_electron (e : env) (signal : option nat) :
  electron_runs (run_with e signal) =
    (if cd_project_ok e && cd_api_ok e &&
        match signal with
        | Some n => (electron_at e <? n)%nat
        | None => true
        end
     then 1 else 0)%nat ∧
  0 <= slept (run_with e signal) <= 60 ∧
  run_with e None = run e.
Proof.
  split; [|split; [|apply run_with_none]].
  - unfold run_with. destruct (cd_project_ok e); [|reflexivity].
    cbn [andb].
    destruct signal as [n|]; rewrite !electron_runs_app.
    + rewrite electron_runs_body.
      destruct (cd_api_ok e && (electron_at e <? n)%nat); reflexivity.
    + rewrite electron_runs_whole_body, andb_true_r.
      destruct (cd_api_ok e); reflexivity.
  - unfold run_with. destruct (cd_project_ok e); [|cbn; lia].
    pose proof (body_slept e) as Hb.
    destruct signal as [n|]; rewrite !slept_app;
      change (slept [Echo "Starting Price Optimizer AI..."; Cd "$PROJECT_DIR"])
        with 0.
    + pose proof (slept_take _ (body_sleeps_forward e) n) as Ht.
      change (slept cleanup_on_signal) with 0. lia.
    + change (slept cleanup) with 0. lia.
Qed.

Lemma script_spawned_take (tr : list step) :
  spawned_services tr = [] → ∀ n, spawned_services (take n tr) = [].
Proof.
  induction tr as [|st tr IH]; intros H n; [destruct n; reflexivity|].
  destruct n as [|n]; [reflexivity|].
  destruct st; try discriminate; exact (IH H n).
Qed.

Lemma script_spawned_app (tr tr' : list step) :
  spawned_services (tr ++ tr') = spawned_services tr ++ spawned_services tr'.
Proof. apply omap_app. Qed.

(** X20: the script puts the frontend in the background only after its
    backend loop has ended, by a successful [curl] or after thirty
    failed ones: everything up to [pnpm start &] is the start of the
    backend and the whole loop.  So a run that is not cut by a signal
    starts both services whenever its [cd]s succeed, and a run in which a
    signal is handled after [n] commands has started the frontend only
    if the loop had ended by then. *)
Theorem script_starts_frontend_after_backend_loop
    (e : env) (signal : option nat) :
  let loop := poll "http://localhost:8000/routes/health" "Backend is ready!"
                (backend_health e) rounds in
  let before :=
    [Echo "Starting Python backend on port 8000..."; Cd "$PROJECT_DIR/api";
     Background Backend; Cd "$PROJECT_DIR";
     Echo "Waiting for backend to be ready..."] ++
    loop ++ [Echo "Starting Next.js frontend on port 3000..."] in
  (if cd_api_ok e
   then ∃ tail, body e = before ++ Background Frontend :: tail
   else body e = [Echo "Starting Python backend on port 8000...";
                  Cd "$PROJECT_DIR/api"]) ∧
  spawned_services (run_with e signal) =
    (if cd_project_ok e && cd_api_ok e then
       match signal with
       | None => [Backend; Frontend]
       | Some n =>
           if (length before <? n)%nat then [Backend; Frontend]
           else if (2 <? n)%nat then [Backend] else []
       end
     else []).
Proof.
  cbn zeta.
  assert (Hbody : ∀ rs,
    [Echo "Starting Python backend on port 8000..."; Cd "$PROJECT_DIR/api"] ++
    ([Background Backend; Cd "$PROJECT_DIR";
      Echo "Waiting for backend to be ready..."] ++
     poll "http://localhost:8000/routes/health" "Backend is ready!"
          (backend_health e) rs ++
     [Echo "Starting Next.js frontend on port 3000..."; Background Frontend;
      Echo "Waiting for frontend to be ready..."] ++
     poll "http://localhost:3000" "Frontend is ready!" (frontend_up e) rs ++
     [Echo "Starting Electron app..."]) ++
    Electron :: (if electron_status e =? 0 then [Wait] else []) =
    ([Echo "Starting Python backend on port 8000..."; Cd "$PROJECT_DIR/api";
      Background Backend; Cd "$PROJECT_DIR";
      Echo "Waiting for backend to be ready..."] ++
     poll "http://localhost:8000/routes/health" "Backend is ready!"
          (backend_health e) rs ++
     [Echo "Starting Next.js frontend on port 3000..."]) ++
    Background Frontend ::
    (Echo "Waiting for frontend to be ready..." ::
     poll "http://localhost:3000" "Frontend is ready!" (frontend_up e) rs ++
     Echo "Starting Electron app..." ::
     Electron :: (if electron_status e =? 0 then [Wait] else []))).
  { intros rs. rewrite <- !app_assoc. cbn [List.app].
    rewrite <- ?app_assoc. reflexivity. }
  unfold run_with, body, until_electron.
  revert Hbody. generalize rounds. intros rs Hbody. specialize (Hbody rs).
  set (loop := poll "http://localhost:8000/routes/health" "Backend is ready!"
                 (backend_health e) rs) in *.
  assert (Hloop : spawned_services loop = []) by apply poll_spawns_nothing.
  set (tail := Echo "Waiting for frontend to be ready..." ::
               poll "http://localhost:3000" "Frontend is ready!"
                    (frontend_up e) rs ++
               Echo "Starting Electron app..." ::
               Electron :: (if electron_status e =? 0 then [Wait] else []))
    in *.
  assert (Htail : spawned_services tail = []).
  { subst tail.
    change (spawned_services (Echo ?m :: ?k)) with (spawned_services k).
    rewrite script_spawned_app, poll_spawns_nothing.
    destruct (electron_status e =? 0); reflexivity. }
  clearbody loop tail.
  destruct (cd_api_ok e); rewrite ?andb_true_r, ?andb_false_r.
  - rewrite Hbody. split; [exists tail; reflexivity|].
    destruct (cd_project_ok e); [|reflexivity].
    change (spawned_services
              ([Echo "Starting Price Optimizer AI..."; Cd "$PROJECT_DIR"] ++ ?k))
      with (spawned_services k).
    destruct signal as [n|].
    + rewrite script_spawned_app, app_nil_r.
      destruct n as [|[|[|n]]]; [reflexivity..|].
      cbn [List.app take length].
      change (spawned_services
                (Echo "Starting Python backend on port 8000..." ::
                 Cd "$PROJECT_DIR/api" :: Background Backend :: ?k))
        with (Backend :: spawned_services k).
      change (Cd "$PROJECT_DIR" :: Echo "Waiting for backend to be ready..." ::
              (loop ++ [Echo "Starting Next.js frontend on port 3000..."]) ++
              Background Frontend :: tail)
        with (([Cd "$PROJECT_DIR"; Echo "Waiting for backend to be ready..."] ++
               loop ++ [Echo "Starting Next.js frontend on port 3000..."]) ++
              Background Frontend :: tail).
      set (mid := [Cd "$PROJECT_DIR"; Echo "Waiting for backend to be ready..."] ++
                  loop ++ [Echo "Starting Next.js frontend on port 3000..."]).
      assert (Hmid : spawned_services mid = []).
      { subst mid. rewrite !script_spawned_app, Hloop. reflexivity. }
      assert (Hlen : length mid =
                     S (S (length (loop ++
                        [Echo "Starting Next.js frontend on port 3000..."]))))
        by reflexivity.
      rewrite <- Hlen. clearbody mid.
      rewrite take_app, script_spawned_app, (script_spawned_take _ Hmid).
      destruct (Nat.ltb_spec (S (S (S (length mid)))) (S (S (S n))))
        as [Hlt|Hge].
      * destruct (n - length mid)%nat as [|m] eqn:Hm; [lia|].
        cbn [take List.app].
        change (spawned_services (Background Frontend :: ?k))
          with (Frontend :: spawned_services k).
        rewrite (script_spawned_take _ Htail). reflexivity.
      * replace (n - length mid)%nat with 0%nat by lia. reflexivity.
    + rewrite !script_spawned_app, Hloop.
      change (spawned_services (Background Frontend :: tail))
        with (Frontend :: spawned_services tail).
      rewrite Htail. reflexivity.
  - split; [reflexivity|].
    destruct (cd_project_ok e); [|reflexivity].
    destruct signal as [[|[|[|n]]]|]; reflexivity.
Qed.

(** X21: the script ends with status 0 in every run in which
    [cd "$PROJECT_DIR"] succeeded, also when [SIGINT] or [SIGTERM] set off
    its trap; only a failure of that first [cd], before the trap is
    installed, gives status 1. *)
Theorem script_exit_status_with_signal (e : env) (signal : option nat) :
  exit_status (run_with e signal) = Some (if cd_project_ok e then 0 else 1).
Proof.
  unfold run_with. destruct (cd_project_ok e); [|reflexivity].
  change (exit_status
            ([Echo "Starting Price Optimizer AI..."; Cd "$PROJECT_DIR"] ++ ?k))
    with (exit_status k).
  destruct signal as [n|]; rewrite exit_status_app;
    auto using exit_status_take, body_no_exit.
Qed.

End ScriptExtras.
